(** * Prepwise client synchronisation layer: a shallow embedding

    The first part follows the TypeScript sources of the web client, one
    module per source file:

    - [Js]            the parts of the JavaScript library the components call
                      ([Array.prototype.sort], [Map] in insertion order,
                      property reads and writes on plain objects,
                      [Math.round] on binary64 numbers);
    - [Api]           the types the components share;
    - [Roster]        components/PresenceRoster.tsx ([sortRoster] and the
                      summaries);
    - [Chat]          components/ChatWidget.tsx ([loadConversations],
                      [loadMessages], [messagesForRender], [send], the
                      message input's [onFocus], the handlers of the
                      conversation list and of the composer, the status
                      line of a message);
    - [Notifications] views/NotificationsPage.tsx ([loadEvents],
                      [toggleRead], [markAllRead]) and the header's unread
                      count;
    - [Quiz]          the quiz of the FlashcardView component: its React
                      state, its event handlers and its effects;
    - [OfflineStorage] services/apiOffline.ts: the [OfflineStorage] class
                      and the fetches that fall back to it.

    The second part states and proves the properties, in the modules
    [JsFacts], [RosterFacts], [ChatFacts], [NotificationsFacts],
    [QuizFacts] and [OfflineStorageFacts].

    Timestamps are integers: milliseconds since the epoch, the value of
    [Date.now()] and of [new Date(s).getTime()] for the date strings the
    server sends. *)

From Stdlib Require Import ZArith Floats.
From stdpp Require Import base option list sorting gmap strings.

#[local] Set Warnings "-clear-no-such-hyp".
Local Open Scope Z_scope.

(** ** The JavaScript library *)

Module Js.

Section ArraySort.
Context {A : Type}.
Variable compareFn : A → A → Z.

(** [Array.prototype.sort(compareFn)] is stable, and for a consistent
    comparator its result is the sorted permutation in which elements
    that compare equal keep their order.  That list is the one a stable
    insertion sort builds. *)
Fixpoint sort_insert (x : A) (l : list A) : list A :=
  match l with
  | [] => [x]
  | y :: l' => if compareFn x y <=? 0 then x :: l else y :: sort_insert x l'
  end.

Definition sort (l : list A) : list A := foldr sort_insert [] l.

(** [a] is placed no later than [b]. *)
Definition precedes (a b : A) : Prop := compareFn a b ≤ 0.

(** What ECMAScript calls a consistent comparator, as far as the proofs
    below need it. *)
Record consistent : Prop := {
  cmp_total : ∀ a b, 0 < compareFn a b → compareFn b a ≤ 0;
  cmp_trans : ∀ a b c, compareFn a b ≤ 0 → compareFn b c ≤ 0 → compareFn a c ≤ 0;
  cmp_equiv : ∀ a x y, compareFn a x = 0 → 0 < compareFn x y → compareFn a y ≠ 0
}.
End ArraySort.

(** [Map<string, V>]: entries are kept in the order their keys were first
    set; [set] on a key that is present replaces the value where it
    stands.  [Array.from(map.values())] lists the values in that order. *)
Section OrderedMap.
Context {V : Type}.

Fixpoint Map_set (k : string) (v : V) (m : list (string * V)) : list (string * V) :=
  match m with
  | [] => [(k, v)]
  | (k', v') :: m' =>
      if decide (k = k') then (k, v) :: m' else (k', v') :: Map_set k v m'
  end.

Definition Map_values (m : list (string * V)) : list V := m.*2.

(** [const map = new Map(); xs.forEach(x => map.set(key(x), x));
    Array.from(map.values())] *)
Definition collect (key : V → string) (xs : list V) (m : list (string * V)) :
    list (string * V) :=
  foldl (λ acc x, Map_set (key x) x acc) m xs.

Definition dedupe_by (key : V → string) (xs : list V) : list V :=
  Map_values (collect key xs []).
End OrderedMap.

(** A plain object whose own properties hold booleans (a
    [Record<string, boolean>]) is the finite map of its own properties.
    Reading a property that the object does not have itself finds the one
    it inherits from [Object.prototype], if there is one of that name:
    these are the names of ECMAScript with its Annex B, as browsers have
    them.  Each inherited value is a function or, for [__proto__], the
    prototype object, and so truthy. *)
Definition Object_prototype_properties : list string :=
  ["constructor"; "hasOwnProperty"; "isPrototypeOf"; "propertyIsEnumerable";
   "toLocaleString"; "toString"; "valueOf"; "__proto__";
   "__defineGetter__"; "__defineSetter__"; "__lookupGetter__"; "__lookupSetter__"].

Definition inherited (key : string) : bool :=
  bool_decide (key ∈ Object_prototype_properties).

(** [!!o[key]] *)
Definition truthy_at (o : gmap string bool) (key : string) : bool :=
  match o !! key with
  | Some own => own
  | None => inherited key
  end.

(** [o[key] = v] for a boolean [v]: the own property is created or
    overwritten, except under the key [__proto__], where the assignment
    reaches the inherited setter, which ignores a value that is neither an
    object nor null.  (An object literal with a computed key,
    [{ ...o, [key]: v }], defines the own property whatever the key.) *)
Definition assign (key : string) (v : bool) (o : gmap string bool) : gmap string bool :=
  if bool_decide (key = "__proto__") then o else <[key := v]> o.

(** Numbers are binary64 floating-point values.  [number_of_nat] is the
    number an array length or a counter holds (exact below 2^53). *)
Definition number_of_nat (n : nat) : float :=
  PrimFloat.of_uint63 (Uint63.of_Z (Z.of_nat n)).

(** [Math.round(x)]: the integer nearest to [x], the larger one when two are
    equally near, that is the floor of [x + 1/2] taken exactly; [None]
    stands for the results NaN and ±Infinity. *)
Definition Math_round (x : float) : option Z :=
  match Prim2SF x with
  | S754_zero _ => Some 0
  | S754_finite sign m e =>
      let n := if sign then Z.neg m else Z.pos m in
      Some (if 0 <=? e then n * 2 ^ e
            else (2 * n + 2 ^ (- e)) `div` 2 ^ (1 - e))
  | S754_infinity _ | S754_nan => None
  end.

End Js.

(** ** Types shared by the components (services/api, AuthProvider) *)

Module Api.

Inductive UserRole := user | admin.

(** The signed-in session the auth provider supplies. *)
Record Session := { s_token : string; s_username : string; s_role : UserRole }.

End Api.

(** ** components/PresenceRoster.tsx *)

Module Roster.

Import Api.

(** [UserInfo] of services/api.  [lastSeen] is [None] for a missing, null
    or empty string, and otherwise the time the string denotes. *)
Record UserInfo := {
  username : string;
  role : UserRole;
  online : bool;
  lastSeen : option Z
}.

(** [a.lastSeen ? new Date(a.lastSeen).getTime() : 0] *)
Definition lastSeenTime (a : UserInfo) : Z :=
  match lastSeen a with Some t => t | None => 0 end.

(** The comparator passed to [sort] in [sortRoster]. *)
Definition compareRoster (a b : UserInfo) : Z :=
  if negb (eqb (online a) (online b)) then
    if online a then -1 else 1
  else lastSeenTime b - lastSeenTime a.

Definition sortRoster (users : list UserInfo) : list UserInfo :=
  Js.sort compareRoster users.

(** The provider stores each fetched overview in place of the one it had
    ([setPresenceOverview(response)]) and the roster component shows
    [sortRoster] of the stored lists: what is shown after a fetch depends
    on the fetched snapshot alone. *)
Definition mergeRoster (previous incoming : list UserInfo) : list UserInfo :=
  sortRoster incoming.

(** Online entries first, then the later [lastSeen] first. *)
Definition roster_before (a b : UserInfo) : Prop :=
  (online a = true ∧ online b = false)
  ∨ (online a = online b ∧ lastSeenTime b ≤ lastSeenTime a).

(** Same presence flag and same [lastSeen] time. *)
Definition tied (a b : UserInfo) : Prop :=
  online a = online b ∧ lastSeenTime a = lastSeenTime b.

(** The order with the tie-break by username: as [roster_before], and among
    tied entries the smaller username first. *)
Definition roster_before_by_name (a b : UserInfo) : Prop :=
  roster_before a b ∧ (tied a b → String.leb (username a) (username b) = true).

#[global] Instance tied_dec a b : Decision (tied a b).
Proof. unfold tied. apply _. Defined.

(** [adminSummary] and [memberSummary]: how many of the entries are
    online, and how many there are. *)
Definition onlineCount (entries : list UserInfo) : nat :=
  length (filter (λ entry, online entry = true) entries).

Definition summary (entries : list UserInfo) : nat * nat :=
  (onlineCount entries, length entries).

(** A snapshot used as an example. *)
Definition bob : UserInfo :=
  {| username := "bob"; role := user; online := true; lastSeen := None |}.
Definition alice : UserInfo :=
  {| username := "alice"; role := user; online := true; lastSeen := None |}.

End Roster.

(** ** components/ChatWidget.tsx *)

Module Chat.

Import Api.

Definition ConversationId := string.

Record Participant := { p_username : string; p_role : UserRole }.

(** [Message] of services/chatApi; [createdAt] is the time its string
    denotes. *)
Record Message := {
  id : string;
  conversationId : ConversationId;
  sender : Participant;
  body : string;
  createdAt : Z;
  readBy : list string
}.

Record ConversationSummary := {
  conv_id : ConversationId;
  participants : list Participant;
  lastMessageAt : option Z;
  lastMessagePreview : option string;
  unreadCount : Z
}.

(** [(a, b) => new Date(a.createdAt).getTime() - new Date(b.createdAt).getTime()] *)
Definition compareCreatedAt (a b : Message) : Z := createdAt a - createdAt b.

(** [loadMessages]: the value handed to [setMessages] for the fetched list. *)
Definition loadMessages (response : list Message) : list Message :=
  Js.sort compareCreatedAt (Js.dedupe_by id response).

(** The [messages] state after a poll of the open conversation: the list
    built from the response takes the place of the one held before. *)
Definition mergeMessages (existing incoming : list Message) : list Message :=
  loadMessages incoming.

(** [messagesForRender], computed from the [messages] state. *)
Definition messagesForRender (messages : list Message) : list Message :=
  Js.sort compareCreatedAt (Js.dedupe_by id messages).

(** [send]: the state update that adds the message the server returned. *)
Definition addSent (prev : list Message) (sent : Message) : list Message :=
  Js.Map_values (Js.Map_set (id sent) sent (Js.collect id prev [])).

Definition createdAt_le (a b : Message) : Prop := createdAt a ≤ createdAt b.

(** An id-or-null is truthy when it is a non-empty string. *)
Definition truthyId (i : option ConversationId) : bool :=
  match i with Some c => negb (bool_decide (c = "")) | None => false end.

(** *** The message input's [onFocus] handler *)

(** An async handler, cut at its [await]s: it ends, or queues an update of
    the [conversations] state and goes on, or awaits the [markRead] request
    and goes on according to how the request settles. *)
Inductive Settled := Fulfilled | Rejected.

Inductive Handler :=
| Return
| SetConversations (update : list ConversationSummary → list ConversationSummary)
    (next : Handler)
| AwaitMarkRead (token : string) (conversation : ConversationId)
    (next : Settled → Handler).

(** [c.id === selectedId ? { ...c, unreadCount: 0 } : c] *)
Definition zeroUnread (selectedId : ConversationId) (c : ConversationSummary) :
    ConversationSummary :=
  if decide (conv_id c = selectedId) then
    {| conv_id := conv_id c; participants := participants c;
       lastMessageAt := lastMessageAt c;
       lastMessagePreview := lastMessagePreview c; unreadCount := 0 |}
  else c.

(** [if (session && selectedId) { try { await markRead; setConversations }
    catch {} }]: nothing is requested unless somebody is signed in and the
    selected id is truthy. *)
Definition onFocus (session : option Session) (selectedId : option ConversationId) :
    Handler :=
  match session, selectedId with
  | Some s, Some sel =>
      if truthyId (Some sel) then
        AwaitMarkRead (s_token s) sel (λ settled,
          match settled with
          | Fulfilled => SetConversations (λ prev, zeroUnread sel <$> prev) Return
          | Rejected => Return                      (* catch {} *)
          end)
      else Return
  | _, _ => Return
  end.

(** Runs a handler up to its next [await] (or its end): the [conversations]
    state reached, and the suspended rest if a request is pending. *)
Fixpoint run (h : Handler) (conversations : list ConversationSummary) :
    list ConversationSummary * option (ConversationId * (Settled → Handler)) :=
  match h with
  | Return => (conversations, None)
  | SetConversations update next => run next (update conversations)
  | AwaitMarkRead _ conversation next => (conversations, Some (conversation, next))
  end.

(** The [conversations] state while the request of [onFocus] is pending. *)
Definition whilePending (session : option Session) (selectedId : option ConversationId)
    (conversations : list ConversationSummary) : list ConversationSummary :=
  (run (onFocus session selectedId) conversations).1.

(** The [conversations] state once the request has settled. *)
Definition afterSettled (session : option Session) (selectedId : option ConversationId)
    (settled : Settled) (conversations : list ConversationSummary) :
    list ConversationSummary :=
  match run (onFocus session selectedId) conversations with
  | (cs, Some (_, next)) => (run (next settled) cs).1
  | (cs, None) => cs
  end.

Definition unreadOf (sel : ConversationId) (conversations : list ConversationSummary) :
    list Z :=
  unreadCount <$> filter (λ c, conv_id c = sel) conversations.

(** *** The conversation list *)

(** [loadConversations], when the request succeeds: the value handed to
    [setConversations] and the selected id afterwards, given the arguments
    [preferredId] and the [selectedId] of the render. *)
Definition loadConversations (preferredId selectedId : option ConversationId)
    (response : list ConversationSummary) :
    list ConversationSummary * option ConversationId :=
  let conversations := Js.dedupe_by conv_id response in
  (* [preferredId ?? selectedId] *)
  let candidateId := match preferredId with Some p => Some p | None => selectedId end in
  match response with
  | first :: _ =>
      if negb (truthyId candidateId) then (conversations, Some (conv_id first))
      else if negb (bool_decide (candidateId ∈ Some <$> (conv_id <$> response)))
      then (conversations, Some (conv_id first))
      else (conversations, selectedId)
  | [] => (conversations, selectedId)
  end.

(** [unreadTotal] and [dedupedConversations]. *)
Definition unreadTotal (conversations : list ConversationSummary) : Z :=
  foldl (λ n c, n + unreadCount c) 0 conversations.

Definition dedupedConversations (conversations : list ConversationSummary) :
    list ConversationSummary :=
  Js.dedupe_by conv_id conversations.

(** The part of the widget's state the conversation handlers write. *)
Record ChatState := {
  conversations : list ConversationSummary;
  selectedId : option ConversationId;
  messages : list Message;
  open : bool
}.

(** [deleteConversation]; a request that fails changes nothing. *)
Definition deleteConversation (conversationId : ConversationId) (settled : Settled)
    (st : ChatState) : ChatState :=
  match settled with
  | Fulfilled =>
      let kept := filter (λ c, conv_id c ≠ conversationId) (conversations st) in
      if bool_decide (selectedId st = Some conversationId)
      then {| conversations := kept; selectedId := None; messages := []; open := open st |}
      else {| conversations := kept; selectedId := selectedId st;
              messages := messages st; open := open st |}
  | Rejected => st
  end.

(** [createEmptyGroup], given the conversation the server opened. *)
Definition createEmptyGroup (opened : ConversationSummary) (st : ChatState) : ChatState :=
  {| conversations :=
       if bool_decide (conv_id opened ∈ conv_id <$> conversations st)
       then conversations st else opened :: conversations st;
     selectedId := Some (conv_id opened);
     messages := messages st;
     open := true |}.

(** [toggleParticipant] *)
Definition toggleParticipant (username : string) (prev : list string) : list string :=
  if bool_decide (username ∈ prev) then filter (λ entry, entry ≠ username) prev
  else prev ++ [username].

(** [participantOptions]: the presence entries other than the user's own,
    one per username, in the roster's order.  An option has the fields of
    a presence entry, and the comparator is the one of [sortRoster]. *)
Definition participantOptions (session : option Session)
    (presenceEntries : list Roster.UserInfo) : list Roster.UserInfo :=
  match session with
  | None => []
  | Some s =>
      Js.sort Roster.compareRoster
        (Js.dedupe_by Roster.username
           (filter (λ entry, Roster.username entry ≠ s_username s) presenceEntries))
  end.


(** The status line of a rendered message: ["Read"], ["Delivered"], or
    nothing for a message of somebody else. *)
Inductive Status := Read | Delivered | NoStatus.

Definition messageStatus (session : Session) (selected : ConversationSummary)
    (m : Message) : Status :=
  let mine := bool_decide (p_username (sender m) = s_username session) in
  let others :=
    p_username <$> filter (λ p, p_username p ≠ s_username session) (participants selected) in
  let isReadByOthers :=
    if mine then forallb (λ u, bool_decide (u ∈ readBy m)) others else false in
  if mine then (if isReadByOthers then Read else Delivered) else NoStatus.

(** A session and two conversations used as examples. *)
Definition me : Session := {| s_token := "t"; s_username := "me"; s_role := user |}.
Definition c1 : ConversationSummary :=
  {| conv_id := "c1"; participants := []; lastMessageAt := None;
     lastMessagePreview := None; unreadCount := 3 |}.

Definition c2 : ConversationSummary :=
  {| conv_id := "c2"; participants := []; lastMessageAt := None;
     lastMessagePreview := None; unreadCount := 5 |}.

Definition hello : Message :=
  {| id := "m1"; conversationId := "c1";
     sender := {| p_username := "me"; p_role := user |};
     body := "hello"; createdAt := 10; readBy := [] |}.

End Chat.

(** ** views/NotificationsPage.tsx and the header's unread count *)

Module Notifications.

Import Api.

Inductive EventType := login | logout | signup | community_post.

(** [PresenceEvent] of services/api; [timestamp] is the time its string
    denotes. *)
Record PresenceEvent := {
  id : string;
  ev_username : string;
  ev_role : UserRole;
  type : EventType;
  timestamp : Z
}.

(** The read ledger, a [Record<string, boolean>]: the map of the object's
    own properties.  The part of [localStorage] that holds ledgers: the
    JSON text under a key is taken for the ledger it encodes
    ([JSON.stringify] writes the own properties and [JSON.parse] defines
    them again as own properties, whatever their names). *)
Abbreviation ReadMap := (gmap string bool).
Abbreviation LocalStorage := (gmap string (gmap string bool)).

(** [`presence_read:${session.username}`] *)
Definition storageKey (username : string) : string :=
  String.append "presence_read:" username.

(** [!!readMap[e.id]]: the own property when the ledger has one for the
    id, and otherwise what a plain object inherits under that name. *)
Definition isRead (readMap : ReadMap) (e : PresenceEvent) : bool :=
  Js.truthy_at readMap (id e).

(** The header's count:
    [res.events.reduce((acc, e) => (readMap[e.id] ? acc : acc + 1), 0)] *)
Definition unreadPresence (events : list PresenceEvent) (readMap : ReadMap) : nat :=
  foldl (λ acc e, if isRead readMap e then acc else (acc + 1)%nat) 0%nat events.

(** The header reads the ledger from storage; a missing entry is the empty
    ledger. *)
Definition storedReadMap (username : string) (storage : LocalStorage) : ReadMap :=
  default ∅ (storage !! storageKey username).

(** [loadEvents]: newest first, the first twenty. *)
Definition compareNewestFirst (a b : PresenceEvent) : Z := timestamp b - timestamp a.

Definition loadEvents (events : list PresenceEvent) : list PresenceEvent :=
  take 20 (Js.sort compareNewestFirst events).

(** [toggleRead]: the ledger the updater returns,
    [{ ...prev, [id]: next }]. *)
Definition toggleRead (id : string) (next : bool) (prev : ReadMap) : ReadMap :=
  <[id := next]> prev.

(** [markAllRead]: the ledger built from the events on the page,
    [for (const e of presenceEvents) updated[e.id] = true]. *)
Definition markAllRead (presenceEvents : list PresenceEvent) : ReadMap :=
  foldl (λ updated e, Js.assign (id e) true updated) ∅ presenceEvents.

(** Both handlers store the ledger they produce under the user's key (when
    there is a session); a [setItem] that throws is caught and leaves the
    storage as it was. *)
Definition persist (session : option Session) (setItemThrows : bool)
    (updated : ReadMap) (storage : LocalStorage) : LocalStorage :=
  match session with
  | Some s =>
      if setItemThrows then storage
      else <[storageKey (s_username s) := updated]> storage
  | None => storage
  end.

(** The header's [load]: the count it shows, given what
    [fetchPresenceEvents] returned ([None] when the request failed).  No
    request is made unless an admin is signed in. *)
Definition headerUnreadPresence (session : option Session)
    (fetched : option (list PresenceEvent)) (storage : LocalStorage) : nat :=
  match session with
  | Some s =>
      match s_role s, fetched with
      | admin, Some events => unreadPresence events (storedReadMap (s_username s) storage)
      | admin, None => 0%nat                            (* catch *)
      | user, _ => 0%nat
      end
  | None => 0%nat
  end.

(** The button of an event row: [onClick={() => toggleRead(event.id, !isRead)}]
    with [isRead = !!readMap[event.id]]. *)
Definition clickToggle (readMap : ReadMap) (e : PresenceEvent) : ReadMap :=
  toggleRead (id e) (negb (isRead readMap e)) readMap.

(** An admin, a feed of twenty-one events (ids "a" to "u", "a" the oldest)
    and two events used as examples. *)
Definition boss : Session := {| s_token := "t"; s_username := "ann"; s_role := admin |}.

Definition feed21 : list PresenceEvent :=
  imap (λ i name, {| id := name; ev_username := "ben"; ev_role := user;
                     type := login; timestamp := 1000 * Z.of_nat i |})
       ["a"; "b"; "c"; "d"; "e"; "f"; "g"; "h"; "i"; "j"; "k"; "l"; "m"; "n"; "o"; "p";
        "q"; "r"; "s"; "t"; "u"].

Definition e1 : PresenceEvent :=
  {| id := "e1"; ev_username := "ann"; ev_role := admin; type := login; timestamp := 100 |}.
Definition e2 : PresenceEvent :=
  {| id := "e2"; ev_username := "ben"; ev_role := user; type := signup; timestamp := 200 |}.

(** An event whose id is the name of a property that plain objects
    inherit. *)
Definition e3 : PresenceEvent :=
  {| id := "constructor"; ev_username := "cy"; ev_role := user; type := logout;
     timestamp := 300 |}.

End Notifications.

(** ** The quiz of the FlashcardView component *)

Module Quiz.

Inductive StudyMode := flashcard | quiz.
Inductive QuizDifficulty := hard | medium | easy | practice.

#[global] Instance StudyMode_eq_dec : EqDecision StudyMode.
Proof. solve_decision. Defined.
#[global] Instance QuizDifficulty_eq_dec : EqDecision QuizDifficulty.
Proof. solve_decision. Defined.

Record Question := {
  number : Z;
  question : string;
  choices : list string;
  correct_answer : string
}.

(** *** The component's state

    One field per [useState] cell the quiz reads or writes.
    [flashcardQuestions] is [flashcard?.parsedData?.questions || []] of the
    loaded flashcard.  [selectedAnswersRef] stands for the identity of the
    [selectedAnswers] object: every [setSelectedAnswers] stores a fresh
    object, which is what an effect's dependency check ([Object.is])
    sees. *)
Record State := {
  flashcardQuestions : list Question;
  loading : bool;
  currentQuestionIndex : nat;
  selectedAnswers : gmap Z string;
  selectedAnswersRef : nat;
  showAnswers : bool;
  studyMode : StudyMode;
  quizTimer : Z;
  quizFinished : bool;
  quizAborted : bool;
  quizStarted : bool;
  easyModeTime : Z;
  selectedTimerPerQuestion : Z;
  quizDifficulty : option QuizDifficulty;
  connectionLost : bool;
  offlineSince : option Z;
  cheatingDetected : bool;
  offlineTimeoutWarning : bool;
  offlineElapsedSeconds : Z;
  shuffledQuestions : list Question
}.

(** The state setters, [setX(v)]. *)
Definition setCurrentQuestionIndex (v : nat) (s : State) : State :=
  {| flashcardQuestions := flashcardQuestions s; loading := loading s;
     currentQuestionIndex := v; selectedAnswers := selectedAnswers s;
     selectedAnswersRef := selectedAnswersRef s; showAnswers := showAnswers s;
     studyMode := studyMode s; quizTimer := quizTimer s;
     quizFinished := quizFinished s; quizAborted := quizAborted s;
     quizStarted := quizStarted s; easyModeTime := easyModeTime s;
     selectedTimerPerQuestion := selectedTimerPerQuestion s;
     quizDifficulty := quizDifficulty s; connectionLost := connectionLost s;
     offlineSince := offlineSince s; cheatingDetected := cheatingDetected s;
     offlineTimeoutWarning := offlineTimeoutWarning s;
     offlineElapsedSeconds := offlineElapsedSeconds s;
     shuffledQuestions := shuffledQuestions s |}.

Definition setShowAnswers (v : bool) (s : State) : State :=
  {| flashcardQuestions := flashcardQuestions s; loading := loading s;
     currentQuestionIndex := currentQuestionIndex s;
     selectedAnswers := selectedAnswers s; selectedAnswersRef := selectedAnswersRef s;
     showAnswers := v; studyMode := studyMode s; quizTimer := quizTimer s;
     quizFinished := quizFinished s; quizAborted := quizAborted s;
     quizStarted := quizStarted s; easyModeTime := easyModeTime s;
     selectedTimerPerQuestion := selectedTimerPerQuestion s;
     quizDifficulty := quizDifficulty s; connectionLost := connectionLost s;
     offlineSince := offlineSince s; cheatingDetected := cheatingDetected s;
     offlineTimeoutWarning := offlineTimeoutWarning s;
     offlineElapsedSeconds := offlineElapsedSeconds s;
     shuffledQuestions := shuffledQuestions s |}.

Definition setStudyMode (v : StudyMode) (s : State) : State :=
  {| flashcardQuestions := flashcardQuestions s; loading := loading s;
     currentQuestionIndex := currentQuestionIndex s;
     selectedAnswers := selectedAnswers s; selectedAnswersRef := selectedAnswersRef s;
     showAnswers := showAnswers s; studyMode := v; quizTimer := quizTimer s;
     quizFinished := quizFinished s; quizAborted := quizAborted s;
     quizStarted := quizStarted s; easyModeTime := easyModeTime s;
     selectedTimerPerQuestion := selectedTimerPerQuestion s;
     quizDifficulty := quizDifficulty s; connectionLost := connectionLost s;
     offlineSince := offlineSince s; cheatingDetected := cheatingDetected s;
     offlineTimeoutWarning := offlineTimeoutWarning s;
     offlineElapsedSeconds := offlineElapsedSeconds s;
     shuffledQuestions := shuffledQuestions s |}.

Definition setQuizTimer (v : Z) (s : State) : State :=
  {| flashcardQuestions := flashcardQuestions s; loading := loading s;
     currentQuestionIndex := currentQuestionIndex s;
     selectedAnswers := selectedAnswers s; selectedAnswersRef := selectedAnswersRef s;
     showAnswers := showAnswers s; studyMode := studyMode s; quizTimer := v;
     quizFinished := quizFinished s; quizAborted := quizAborted s;
     quizStarted := quizStarted s; easyModeTime := easyModeTime s;
     selectedTimerPerQuestion := selectedTimerPerQuestion s;
     quizDifficulty := quizDifficulty s; connectionLost := connectionLost s;
     offlineSince := offlineSince s; cheatingDetected := cheatingDetected s;
     offlineTimeoutWarning := offlineTimeoutWarning s;
     offlineElapsedSeconds := offlineElapsedSeconds s;
     shuffledQuestions := shuffledQuestions s |}.

Definition setQuizFinished (v : bool) (s : State) : State :=
  {| flashcardQuestions := flashcardQuestions s; loading := loading s;
     currentQuestionIndex := currentQuestionIndex s;
     selectedAnswers := selectedAnswers s; selectedAnswersRef := selectedAnswersRef s;
     showAnswers := showAnswers s; studyMode := studyMode s; quizTimer := quizTimer s;
     quizFinished := v; quizAborted := quizAborted s; quizStarted := quizStarted s;
     easyModeTime := easyModeTime s;
     selectedTimerPerQuestion := selectedTimerPerQuestion s;
     quizDifficulty := quizDifficulty s; connectionLost := connectionLost s;
     offlineSince := offlineSince s; cheatingDetected := cheatingDetected s;
     offlineTimeoutWarning := offlineTimeoutWarning s;
     offlineElapsedSeconds := offlineElapsedSeconds s;
     shuffledQuestions := shuffledQuestions s |}.

Definition setQuizAborted (v : bool) (s : State) : State :=
  {| flashcardQuestions := flashcardQuestions s; loading := loading s;
     currentQuestionIndex := currentQuestionIndex s;
     selectedAnswers := selectedAnswers s; selectedAnswersRef := selectedAnswersRef s;
     showAnswers := showAnswers s; studyMode := studyMode s; quizTimer := quizTimer s;
     quizFinished := quizFinished s; quizAborted := v; quizStarted := quizStarted s;
     easyModeTime := easyModeTime s;
     selectedTimerPerQuestion := selectedTimerPerQuestion s;
     quizDifficulty := quizDifficulty s; connectionLost := connectionLost s;
     offlineSince := offlineSince s; cheatingDetected := cheatingDetected s;
     offlineTimeoutWarning := offlineTimeoutWarning s;
     offlineElapsedSeconds := offlineElapsedSeconds s;
     shuffledQuestions := shuffledQuestions s |}.

Definition setQuizStarted (v : bool) (s : State) : State :=
  {| flashcardQuestions := flashcardQuestions s; loading := loading s;
     currentQuestionIndex := currentQuestionIndex s;
     selectedAnswers := selectedAnswers s; selectedAnswersRef := selectedAnswersRef s;
     showAnswers := showAnswers s; studyMode := studyMode s; quizTimer := quizTimer s;
     quizFinished := quizFinished s; quizAborted := quizAborted s; quizStarted := v;
     easyModeTime := easyModeTime s;
     selectedTimerPerQuestion := selectedTimerPerQuestion s;
     quizDifficulty := quizDifficulty s; connectionLost := connectionLost s;
     offlineSince := offlineSince s; cheatingDetected := cheatingDetected s;
     offlineTimeoutWarning := offlineTimeoutWarning s;
     offlineElapsedSeconds := offlineElapsedSeconds s;
     shuffledQuestions := shuffledQuestions s |}.

Definition setEasyModeTime (v : Z) (s : State) : State :=
  {| flashcardQuestions := flashcardQuestions s; loading := loading s;
     currentQuestionIndex := currentQuestionIndex s;
     selectedAnswers := selectedAnswers s; selectedAnswersRef := selectedAnswersRef s;
     showAnswers := showAnswers s; studyMode := studyMode s; quizTimer := quizTimer s;
     quizFinished := quizFinished s; quizAborted := quizAborted s;
     quizStarted := quizStarted s; easyModeTime := v;
     selectedTimerPerQuestion := selectedTimerPerQuestion s;
     quizDifficulty := quizDifficulty s; connectionLost := connectionLost s;
     offlineSince := offlineSince s; cheatingDetected := cheatingDetected s;
     offlineTimeoutWarning := offlineTimeoutWarning s;
     offlineElapsedSeconds := offlineElapsedSeconds s;
     shuffledQuestions := shuffledQuestions s |}.

Definition setSelectedTimerPerQuestion (v : Z) (s : State) : State :=
  {| flashcardQuestions := flashcardQuestions s; loading := loading s;
     currentQuestionIndex := currentQuestionIndex s;
     selectedAnswers := selectedAnswers s; selectedAnswersRef := selectedAnswersRef s;
     showAnswers := showAnswers s; studyMode := studyMode s; quizTimer := quizTimer s;
     quizFinished := quizFinished s; quizAborted := quizAborted s;
     quizStarted := quizStarted s; easyModeTime := easyModeTime s;
     selectedTimerPerQuestion := v; quizDifficulty := quizDifficulty s;
     connectionLost := connectionLost s; offlineSince := offlineSince s;
     cheatingDetected := cheatingDetected s;
     offlineTimeoutWarning := offlineTimeoutWarning s;
     offlineElapsedSeconds := offlineElapsedSeconds s;
     shuffledQuestions := shuffledQuestions s |}.

Definition setQuizDifficulty (v : option QuizDifficulty) (s : State) : State :=
  {| flashcardQuestions := flashcardQuestions s; loading := loading s;
     currentQuestionIndex := currentQuestionIndex s;
     selectedAnswers := selectedAnswers s; selectedAnswersRef := selectedAnswersRef s;
     showAnswers := showAnswers s; studyMode := studyMode s; quizTimer := quizTimer s;
     quizFinished := quizFinished s; quizAborted := quizAborted s;
     quizStarted := quizStarted s; easyModeTime := easyModeTime s;
     selectedTimerPerQuestion := selectedTimerPerQuestion s; quizDifficulty := v;
     connectionLost := connectionLost s; offlineSince := offlineSince s;
     cheatingDetected := cheatingDetected s;
     offlineTimeoutWarning := offlineTimeoutWarning s;
     offlineElapsedSeconds := offlineElapsedSeconds s;
     shuffledQuestions := shuffledQuestions s |}.

Definition setConnectionLost (v : bool) (s : State) : State :=
  {| flashcardQuestions := flashcardQuestions s; loading := loading s;
     currentQuestionIndex := currentQuestionIndex s;
     selectedAnswers := selectedAnswers s; selectedAnswersRef := selectedAnswersRef s;
     showAnswers := showAnswers s; studyMode := studyMode s; quizTimer := quizTimer s;
     quizFinished := quizFinished s; quizAborted := quizAborted s;
     quizStarted := quizStarted s; easyModeTime := easyModeTime s;
     selectedTimerPerQuestion := selectedTimerPerQuestion s;
     quizDifficulty := quizDifficulty s; connectionLost := v;
     offlineSince := offlineSince s; cheatingDetected := cheatingDetected s;
     offlineTimeoutWarning := offlineTimeoutWarning s;
     offlineElapsedSeconds := offlineElapsedSeconds s;
     shuffledQuestions := shuffledQuestions s |}.

Definition setOfflineSince (v : option Z) (s : State) : State :=
  {| flashcardQuestions := flashcardQuestions s; loading := loading s;
     currentQuestionIndex := currentQuestionIndex s;
     selectedAnswers := selectedAnswers s; selectedAnswersRef := selectedAnswersRef s;
     showAnswers := showAnswers s; studyMode := studyMode s; quizTimer := quizTimer s;
     quizFinished := quizFinished s; quizAborted := quizAborted s;
     quizStarted := quizStarted s; easyModeTime := easyModeTime s;
     selectedTimerPerQuestion := selectedTimerPerQuestion s;
     quizDifficulty := quizDifficulty s; connectionLost := connectionLost s;
     offlineSince := v; cheatingDetected := cheatingDetected s;
     offlineTimeoutWarning := offlineTimeoutWarning s;
     offlineElapsedSeconds := offlineElapsedSeconds s;
     shuffledQuestions := shuffledQuestions s |}.

Definition setCheatingDetected (v : bool) (s : State) : State :=
  {| flashcardQuestions := flashcardQuestions s; loading := loading s;
     currentQuestionIndex := currentQuestionIndex s;
     selectedAnswers := selectedAnswers s; selectedAnswersRef := selectedAnswersRef s;
     showAnswers := showAnswers s; studyMode := studyMode s; quizTimer := quizTimer s;
     quizFinished := quizFinished s; quizAborted := quizAborted s;
     quizStarted := quizStarted s; easyModeTime := easyModeTime s;
     selectedTimerPerQuestion := selectedTimerPerQuestion s;
     quizDifficulty := quizDifficulty s; connectionLost := connectionLost s;
     offlineSince := offlineSince s; cheatingDetected := v;
     offlineTimeoutWarning := offlineTimeoutWarning s;
     offlineElapsedSeconds := offlineElapsedSeconds s;
     shuffledQuestions := shuffledQuestions s |}.

Definition setOfflineTimeoutWarning (v : bool) (s : State) : State :=
  {| flashcardQuestions := flashcardQuestions s; loading := loading s;
     currentQuestionIndex := currentQuestionIndex s;
     selectedAnswers := selectedAnswers s; selectedAnswersRef := selectedAnswersRef s;
     showAnswers := showAnswers s; studyMode := studyMode s; quizTimer := quizTimer s;
     quizFinished := quizFinished s; quizAborted := quizAborted s;
     quizStarted := quizStarted s; easyModeTime := easyModeTime s;
     selectedTimerPerQuestion := selectedTimerPerQuestion s;
     quizDifficulty := quizDifficulty s; connectionLost := connectionLost s;
     offlineSince := offlineSince s; cheatingDetected := cheatingDetected s;
     offlineTimeoutWarning := v; offlineElapsedSeconds := offlineElapsedSeconds s;
     shuffledQuestions := shuffledQuestions s |}.

Definition setOfflineElapsedSeconds (v : Z) (s : State) : State :=
  {| flashcardQuestions := flashcardQuestions s; loading := loading s;
     currentQuestionIndex := currentQuestionIndex s;
     selectedAnswers := selectedAnswers s; selectedAnswersRef := selectedAnswersRef s;
     showAnswers := showAnswers s; studyMode := studyMode s; quizTimer := quizTimer s;
     quizFinished := quizFinished s; quizAborted := quizAborted s;
     quizStarted := quizStarted s; easyModeTime := easyModeTime s;
     selectedTimerPerQuestion := selectedTimerPerQuestion s;
     quizDifficulty := quizDifficulty s; connectionLost := connectionLost s;
     offlineSince := offlineSince s; cheatingDetected := cheatingDetected s;
     offlineTimeoutWarning := offlineTimeoutWarning s; offlineElapsedSeconds := v;
     shuffledQuestions := shuffledQuestions s |}.

Definition setShuffledQuestions (v : list Question) (s : State) : State :=
  {| flashcardQuestions := flashcardQuestions s; loading := loading s;
     currentQuestionIndex := currentQuestionIndex s;
     selectedAnswers := selectedAnswers s; selectedAnswersRef := selectedAnswersRef s;
     showAnswers := showAnswers s; studyMode := studyMode s; quizTimer := quizTimer s;
     quizFinished := quizFinished s; quizAborted := quizAborted s;
     quizStarted := quizStarted s; easyModeTime := easyModeTime s;
     selectedTimerPerQuestion := selectedTimerPerQuestion s;
     quizDifficulty := quizDifficulty s; connectionLost := connectionLost s;
     offlineSince := offlineSince s; cheatingDetected := cheatingDetected s;
     offlineTimeoutWarning := offlineTimeoutWarning s;
     offlineElapsedSeconds := offlineElapsedSeconds s; shuffledQuestions := v |}.

(** [setSelectedAnswers(v)] stores a new object. *)
Definition setSelectedAnswers (v : gmap Z string) (s : State) : State :=
  {| flashcardQuestions := flashcardQuestions s; loading := loading s;
     currentQuestionIndex := currentQuestionIndex s; selectedAnswers := v;
     selectedAnswersRef := S (selectedAnswersRef s); showAnswers := showAnswers s;
     studyMode := studyMode s; quizTimer := quizTimer s;
     quizFinished := quizFinished s; quizAborted := quizAborted s;
     quizStarted := quizStarted s; easyModeTime := easyModeTime s;
     selectedTimerPerQuestion := selectedTimerPerQuestion s;
     quizDifficulty := quizDifficulty s; connectionLost := connectionLost s;
     offlineSince := offlineSince s; cheatingDetected := cheatingDetected s;
     offlineTimeoutWarning := offlineTimeoutWarning s;
     offlineElapsedSeconds := offlineElapsedSeconds s;
     shuffledQuestions := shuffledQuestions s |}.

(** *** Persistence

    The snapshot the auto-save effect hands to
    [offlineStorage.setQuizSession]. *)
Record SessionData := {
  sd_flashcardId : string;
  sd_currentQuestionIndex : nat;
  sd_selectedAnswers : gmap Z string;
  sd_studyMode : StudyMode;
  sd_quizTimer : Z;
  sd_selectedTimerPerQuestion : Z;
  sd_quizStarted : bool;
  sd_timestamp : Z;
  sd_cheatingDetected : bool;
  sd_offlineSince : option Z
}.

Abbreviation QuizSessions := (gmap string SessionData).

(** Modelled from the spec: the two quiz-session operations of
    services/offlineStorage, which the component calls and whose code is
    not part of the sources at hand.  The store keeps one slot per
    flashcard: [setQuizSession] overwrites the flashcard's slot with the
    snapshot, [deleteQuizSession] empties it. *)
Definition setQuizSession (flashcardId : string) (data : SessionData)
    (slots : QuizSessions) : QuizSessions :=
  <[flashcardId := data]> slots.

Definition deleteQuizSession (flashcardId : string) (slots : QuizSessions) :
    QuizSessions :=
  delete flashcardId slots.

(** What lives outside the [useState] cells: the value of [useIsOnline()],
    the quiz-session slots, and the number of [setTimeout(..., 500)]
    callbacks that are still to fire. *)
Record World := {
  st : State;
  isOnline : bool;
  quizSessions : QuizSessions;
  reconnectTimeouts : nat
}.

Definition withState (f : State → State) (w : World) : World :=
  {| st := f (st w); isOnline := isOnline w; quizSessions := quizSessions w;
     reconnectTimeouts := reconnectTimeouts w |}.

Definition withSessions (f : QuizSessions → QuizSessions) (w : World) : World :=
  {| st := st w; isOnline := isOnline w; quizSessions := f (quizSessions w);
     reconnectTimeouts := reconnectTimeouts w |}.

Definition withOnline (online : bool) (w : World) : World :=
  {| st := st w; isOnline := online; quizSessions := quizSessions w;
     reconnectTimeouts := reconnectTimeouts w |}.

Definition withTimeouts (n : nat) (w : World) : World :=
  {| st := st w; isOnline := isOnline w; quizSessions := quizSessions w;
     reconnectTimeouts := n |}.

(** *** What a render computes *)

(** [shuffledQuestions.length > 0 ? shuffledQuestions : flashcard questions] *)
Definition questions (s : State) : list Question :=
  match shuffledQuestions s with
  | [] => flashcardQuestions s
  | _ :: _ => shuffledQuestions s
  end.

Definition currentQuestion (s : State) : option Question :=
  questions s !! currentQuestionIndex s.

(** The condition under which the quiz effects do not return at once:
    [studyMode !== 'quiz' || !quizStarted || quizFinished || quizAborted]
    is false. *)
Definition inProgress (s : State) : bool :=
  bool_decide (studyMode s = quiz) && quizStarted s
  && negb (quizFinished s) && negb (quizAborted s).

(** [currentQuestionIndex < questions.length - 1] *)
Definition hasNextQuestion (s : State) : bool :=
  Z.of_nat (currentQuestionIndex s) <? Z.of_nat (length (questions s)) - 1.

Inductive Screen :=
| LoadingScreen | NoQuestionsScreen | ResultsScreen
| FlashcardScreen | ModeSelectionScreen | QuizScreen.

#[global] Instance Screen_eq_dec : EqDecision Screen.
Proof. solve_decision. Defined.

(** Which part of the view the component returns. *)
Definition screen (s : State) : Screen :=
  if loading s then LoadingScreen
  else if bool_decide (questions s = []) then NoQuestionsScreen
  else if (quizFinished s || quizAborted s) && bool_decide (studyMode s = quiz)
  then ResultsScreen
  else match studyMode s with
       | flashcard => FlashcardScreen
       | quiz => if quizStarted s then QuizScreen else ModeSelectionScreen
       end.

(** The screens that show the sidebar and the header button. *)
Definition mainScreen (s : State) : bool :=
  match screen s with
  | FlashcardScreen | ModeSelectionScreen | QuizScreen => true
  | _ => false
  end.

(** *** The functions of the component *)

(** [shuffleArray]: Fisher–Yates from the last index down to 1.  [draws i]
    supplies the random number of round [i]; the index it selects,
    [Math.floor(Math.random() * (i + 1))], lies in [0..i]. *)
Definition swap {A} (l : list A) (i j : nat) : list A :=
  match l !! i, l !! j with
  | Some x, Some y => <[i := y]> (<[j := x]> l)
  | _, _ => l
  end.

Fixpoint shuffleFrom {A} (draws : nat → nat) (i : nat) (shuffled : list A) : list A :=
  match i with
  | O => shuffled
  | S i' => shuffleFrom draws i' (swap shuffled i (draws i `mod` (i + 1))%nat)
  end.

Definition shuffleArray {A} (draws : nat → nat) (array : list A) : list A :=
  shuffleFrom draws (length array - 1)%nat array.

(** [submitQuiz] *)
Definition submitQuiz (flashcardId : string) (w : World) : World :=
  withState (setQuizFinished true) (withSessions (deleteQuizSession flashcardId) w).

(** [moveToNextQuestion] *)
Definition moveToNextQuestion (flashcardId : string) (w : World) : World :=
  let s := st w in
  if hasNextQuestion s then
    withState (λ s0,
      let s1 := setShowAnswers false (setCurrentQuestionIndex (currentQuestionIndex s + 1)%nat s0) in
      if bool_decide (quizDifficulty s ≠ Some practice)
      then setQuizTimer (selectedTimerPerQuestion s) s1 else s1) w
  else submitQuiz flashcardId w.

(** The [let timePerQuestion = 10; if ... else if ...] block of
    [startQuizWithDifficulty]; [customTime] is [None] when the argument is
    left out.  A number is truthy when it is not 0. *)
Definition timePerQuestion (difficulty : QuizDifficulty) (customTime : option Z) : Z :=
  match difficulty with
  | hard => 10
  | medium => 20
  | easy =>
      match customTime with
      | Some t => if negb (t =? 0) && (30 <=? t) then t else 10
      | None => 10
      end
  | practice => 0
  end.

(** [startQuizWithDifficulty] *)
Definition startQuizWithDifficulty (difficulty : QuizDifficulty) (customTime : option Z)
    (draws : nat → nat) (s : State) : State :=
  let shuffled := shuffleArray draws (flashcardQuestions s) in
  let t := timePerQuestion difficulty customTime in
  setQuizStarted true
    (setQuizTimer t
      (setSelectedTimerPerQuestion t
        (setQuizDifficulty (Some difficulty)
          (setShuffledQuestions shuffled s)))).

(** *** Events

    What can happen to the mounted component: clicks on the controls a
    screen shows, the callbacks of the two intervals and of the reconnect
    timeout, the document's [visibilitychange] (with [document.hidden]) and
    capture-phase [click] events, and a change of [useIsOnline()]. *)
Inductive Event :=
| ClickSidebarFlashcard
| ClickSidebarQuiz
| ClickSubmitOrBack                       (* the header button *)
| ClickBackToFlashcards                   (* on the results screen *)
| ChangeEasyModeTime (parsed : option Z)  (* [parseInt(e.target.value)], [None] for NaN *)
| ClickDifficulty (difficulty : QuizDifficulty) (draws : nat → nat)
| ClickChoice (choiceLetter : string)
| ClickShowAnswer
| ClickNext
| QuizTimerTick
| OfflineMonitorTick
| VisibilityHidden
| NavClick          (* a [nav a, nav button] whose href does not contain the path *)
| ChatWidgetClick   (* inside [[data-chat-widget]] *)
| OnlineStatus (online : bool)
| ReconnectTimeout.

(** The quiz timer's interval exists while its effect does not return
    early. *)
Definition quizTimerLive (s : State) : bool :=
  inProgress s && negb (loading s) && negb (connectionLost s)
  && bool_decide (quizDifficulty s ≠ Some practice).

(** A number-or-null is truthy when it is a number other than 0. *)
Definition truthy (n : option Z) : bool :=
  match n with Some t => negb (t =? 0) | None => false end.

(** The offline monitor's interval exists while
    [!connectionLost || !offlineSince || quizFinished || quizAborted] is
    false. *)
Definition offlineMonitorLive (s : State) : bool :=
  connectionLost s && truthy (offlineSince s)
  && negb (quizFinished s) && negb (quizAborted s).

Definition OFFLINE_TIMEOUT : Z := 5 * 60.
Definition WARNING_THRESHOLD : Z := 4 * 60.

(** Seconds offline as the monitor computes them:
    [Math.floor((Date.now() - offlineSince) / 1000)]. *)
Definition offlineSeconds (now since : Z) : Z := (now - since) `div` 1000.

(** The callback of the offline monitor's interval. *)
Definition offlineMonitorTick (now : Z) (s : State) : State :=
  match offlineSince s with
  | Some since =>
      let elapsed := offlineSeconds now since in
      let s1 := setOfflineElapsedSeconds elapsed s in
      let s2 := if (WARNING_THRESHOLD <=? elapsed) && negb (offlineTimeoutWarning s)
                then setOfflineTimeoutWarning true s1 else s1 in
      if OFFLINE_TIMEOUT <=? elapsed then setQuizFinished true s2 else s2
  | None => s
  end.

(** The callback of the quiz timer's interval:
    [setQuizTimer(prev => { if (prev <= 1) { moveToNextQuestion(); return
    selectedTimerPerQuestion; } return prev - 1; })] *)
Definition quizTimerTick (flashcardId : string) (w : World) : World :=
  let s := st w in
  if quizTimer s <=? 1 then
    withState (setQuizTimer (selectedTimerPerQuestion s)) (moveToNextQuestion flashcardId w)
  else withState (setQuizTimer (quizTimer s - 1)) w.

(** The listeners of the offline effect ("cheating detection") are
    attached while the quiz is in progress and the connection is lost;
    those of the navigation effect while the quiz is in progress. *)
Definition offlineListenersAttached (s : State) : bool :=
  inProgress s && connectionLost s.

Definition navigationListenersAttached (s : State) : bool := inProgress s.

(** A [visibilitychange] event with [document.hidden]: the
    [handleVisibilityChange] of the offline effect sets the cheating flag,
    the one of the navigation effect sets [quizFinished]. *)
Definition handleVisibilityChange (s : State) : State :=
  let s1 := if offlineListenersAttached s then setCheatingDetected true s else s in
  if navigationListenersAttached s then setQuizFinished true s1 else s1.

(** A click on a navigation link: the [handleNavClick] of the offline
    effect sets the cheating flag, the one of the navigation effect sets
    [quizAborted].  Both listen on the document in the capture phase, so
    [stopPropagation] in one does not keep the other from running. *)
Definition handleNavClick (s : State) : State :=
  let s1 := if offlineListenersAttached s then setCheatingDetected true s else s in
  if navigationListenersAttached s then setQuizAborted true s1 else s1.

(** [handleChatClick] of the navigation effect. *)
Definition handleChatClick (s : State) : State :=
  if navigationListenersAttached s then setQuizAborted true s else s.

(** [selectedAnswers[currentQuestion.number]] is a non-empty string. *)
Definition answerSelected (s : State) : bool :=
  match currentQuestion s with
  | Some q => match selectedAnswers s !! number q with
              | Some letter => negb (bool_decide (letter = ""))
              | None => false
              end
  | None => false
  end.

(** The event handlers.  A click reaches its handler when the screen shows
    the control (and the button is not disabled); a callback runs when its
    interval, listener or timeout exists. *)
Definition handle (flashcardId : string) (now : Z) (e : Event) (w : World) : World :=
  let s := st w in
  match e with
  | ClickSidebarFlashcard =>
      if mainScreen s then
        if inProgress s then submitQuiz flashcardId w
        else withState (λ s,
               setQuizDifficulty None (setShuffledQuestions []
                 (setQuizStarted false (setCurrentQuestionIndex 0
                   (setStudyMode flashcard s))))) w
      else w
  | ClickSidebarQuiz =>
      if mainScreen s then
        withState (λ s,
          setQuizDifficulty None (setShuffledQuestions [] (setEasyModeTime 30
            (setQuizAborted false (setQuizFinished false (setQuizStarted false
              (setCurrentQuestionIndex 0 (setShowAnswers false
                (setStudyMode quiz s)))))))))  w
      else w
  | ClickSubmitOrBack =>
      if mainScreen s && inProgress s then submitQuiz flashcardId w
      else w                                (* [onBack()]: the parent's business *)
  | ClickBackToFlashcards =>
      if bool_decide (screen s = ResultsScreen) then
        withState (λ s,
          setQuizDifficulty None (setShuffledQuestions []
            (setQuizTimer (selectedTimerPerQuestion s) (setQuizStarted false
              (setShowAnswers false (setSelectedAnswers ∅
                (setCurrentQuestionIndex 0 (setQuizAborted false
                  (setQuizFinished false (setStudyMode flashcard s)))))))))) w
      else w
  | ChangeEasyModeTime parsed =>
      if bool_decide (screen s = ModeSelectionScreen) then
        (* [Math.max(30, parseInt(e.target.value) || 30)] *)
        let n := match parsed with
                 | Some n => if n =? 0 then 30 else n
                 | None => 30
                 end in
        withState (setEasyModeTime (Z.max 30 n)) w
      else w
  | ClickDifficulty difficulty draws =>
      if bool_decide (screen s = ModeSelectionScreen) then
        let customTime := match difficulty with
                          | easy => Some (easyModeTime s)
                          | _ => None
                          end in
        withState (startQuizWithDifficulty difficulty customTime draws) w
      else w
  | ClickChoice choiceLetter =>
      if bool_decide (screen s = QuizScreen) && negb (showAnswers s) then
        match currentQuestion s with
        | Some q =>
            withState (setSelectedAnswers (<[number q := choiceLetter]> (selectedAnswers s))) w
        | None => w
        end
      else w
  | ClickShowAnswer =>
      if bool_decide (screen s = QuizScreen) && negb (showAnswers s) && answerSelected s
      then withState (setShowAnswers true) w else w
  | ClickNext =>
      if bool_decide (screen s = QuizScreen) && showAnswers s then
        if hasNextQuestion s then
          withState (λ s0,
            let s1 := setShowAnswers false
                        (setCurrentQuestionIndex (currentQuestionIndex s + 1)%nat s0) in
            if bool_decide (quizDifficulty s ≠ Some practice)
            then setQuizTimer (selectedTimerPerQuestion s) s1 else s1) w
        else submitQuiz flashcardId w
      else w
  | QuizTimerTick =>
      if quizTimerLive s then quizTimerTick flashcardId w else w
  | OfflineMonitorTick =>
      if offlineMonitorLive s then withState (offlineMonitorTick now) w else w
  | VisibilityHidden => withState handleVisibilityChange w
  | NavClick => withState handleNavClick w
  | ChatWidgetClick => withState handleChatClick w
  | OnlineStatus online => withOnline online w
  | ReconnectTimeout =>
      match reconnectTimeouts w with
      | S n => withState (setQuizFinished true) (withTimeouts n w)
      | O => w
      end
  end.

(** *** Effects

    An effect runs after a render in which one of its dependencies differs
    from the render before. *)

Definition sessionData (flashcardId : string) (now : Z) (s : State) : SessionData :=
  {| sd_flashcardId := flashcardId;
     sd_currentQuestionIndex := currentQuestionIndex s;
     sd_selectedAnswers := selectedAnswers s;
     sd_studyMode := studyMode s;
     sd_quizTimer := quizTimer s;
     sd_selectedTimerPerQuestion := selectedTimerPerQuestion s;
     sd_quizStarted := true;
     sd_timestamp := now;
     sd_cheatingDetected := cheatingDetected s;
     sd_offlineSince := offlineSince s |}.

(** The dependency list of the auto-save effect ([flashcardId], a prop,
    does not change while the component is mounted). *)
Definition autoSaveDeps (s : State) :=
  (currentQuestionIndex s, selectedAnswersRef s, quizTimer s,
   selectedTimerPerQuestion s, studyMode s, quizStarted s, quizFinished s,
   quizAborted s, cheatingDetected s, offlineSince s).

Definition autoSaveEffect (flashcardId : string) (now : Z) (prev cur : World) : World :=
  if bool_decide (autoSaveDeps (st prev) ≠ autoSaveDeps (st cur)) && inProgress (st cur)
  then withSessions (setQuizSession flashcardId (sessionData flashcardId now (st cur))) cur
  else cur.

(** The dependency list of the connection effect. *)
Definition connectionDeps (w : World) :=
  (isOnline w, studyMode (st w), quizStarted (st w), quizFinished (st w),
   quizAborted (st w), connectionLost (st w), cheatingDetected (st w)).

(** The connection effect, given the render [rendered] it belongs to; its
    state updates and its timeout are added to [w]. *)
Definition connectionEffect (now : Z) (prev rendered : World) (w : World) : World :=
  let s := st rendered in
  if bool_decide (connectionDeps prev ≠ connectionDeps rendered) && inProgress s then
    if negb (isOnline rendered) && negb (connectionLost s) then
      withState (λ s0, setOfflineSince (Some now) (setConnectionLost true s0)) w
    else if isOnline rendered && connectionLost s then
      let w1 := withState (setConnectionLost false) w in
      if cheatingDetected s then withTimeouts (S (reconnectTimeouts w1)) w1 else w1
    else w
  else w.

(** The effects of one render, in the order the component declares them. *)
Definition commit (flashcardId : string) (now : Z) (prev cur : World) : World :=
  connectionEffect now prev cur (autoSaveEffect flashcardId now prev cur).

(** One event: its handler, the render it causes with that render's
    effects, and the render the effects' own state updates cause. *)
Definition step (flashcardId : string) (now : Z) (e : Event) (w : World) : World :=
  let w1 := handle flashcardId now e w in
  let w2 := commit flashcardId now w w1 in
  commit flashcardId now w1 w2.

(** A trace of events, each with the clock reading at which it happens. *)
Definition run (flashcardId : string) (trace : list (Z * Event)) (w : World) : World :=
  foldl (λ w te, step flashcardId te.1 te.2 w) w trace.

(** The component once the flashcard has loaded. *)
Definition mounted (qs : list Question) : World :=
  {| st := {| flashcardQuestions := qs; loading := false; currentQuestionIndex := 0;
              selectedAnswers := ∅; selectedAnswersRef := 0; showAnswers := false;
              studyMode := flashcard; quizTimer := 10; quizFinished := false;
              quizAborted := false; quizStarted := false; easyModeTime := 30;
              selectedTimerPerQuestion := 10; quizDifficulty := None;
              connectionLost := false; offlineSince := None;
              cheatingDetected := false; offlineTimeoutWarning := false;
              offlineElapsedSeconds := 0; shuffledQuestions := [] |};
     isOnline := true; quizSessions := ∅; reconnectTimeouts := 0 |}.

(** *** The score *)

Record Score := {
  correct : nat;
  total : nat;
  percentage : option Z
}.

(** [selectedAnswers[q.number] === q.correct_answer] *)
Definition answeredCorrectly (s : State) (q : Question) : Prop :=
  selectedAnswers s !! number q = Some (correct_answer q).

#[global] Instance answeredCorrectly_dec s q : Decision (answeredCorrectly s q).
Proof. unfold answeredCorrectly. apply _. Defined.

(** [calculateScore], over the [questions] of the render. *)
Definition calculateScore (s : State) : Score :=
  let correctCount :=
    foldl (λ n q, if decide (answeredCorrectly s q) then S n else n) 0%nat (questions s) in
  {| correct := correctCount;
     total := length (questions s);
     percentage :=
       Js.Math_round (Js.number_of_nat correctCount / Js.number_of_nat (length (questions s))
                      * 100)%float |}.

(** *** The session's phases

    The states of the session as the flags encode them: the results are
    shown once [quizFinished] or [quizAborted] is set. *)
Inductive Phase := Studying | SelectingMode | InProgress | Finished | Aborted.

Definition phase (s : State) : Phase :=
  match studyMode s with
  | flashcard => Studying
  | quiz =>
      if quizAborted s then Aborted
      else if quizFinished s then Finished
      else if quizStarted s then InProgress
      else SelectingMode
  end.

(** The state a render's effects leave: the connection effect's updates
    applied to the rendered state. *)
Definition connectionUpdate (now : Z) (prev rendered : World) : State :=
  let s := st rendered in
  if bool_decide (connectionDeps prev ≠ connectionDeps rendered) && inProgress s then
    if negb (isOnline rendered) && negb (connectionLost s) then
      setOfflineSince (Some now) (setConnectionLost true s)
    else if isOnline rendered && connectionLost s then setConnectionLost false s
    else s
  else s.

(** *** Sessions used as examples *)

Definition q1 : Question :=
  {| number := 1; question := "1 + 1 = ?"; choices := ["A. 2"; "B. 3"];
     correct_answer := "A" |}.
Definition q2 : Question :=
  {| number := 2; question := "2 + 2 = ?"; choices := ["A. 5"; "B. 4"];
     correct_answer := "B" |}.

(** A [hard] quiz on two questions, just started, connected. *)
Definition started : World :=
  run "card" [(1000, ClickSidebarQuiz); (2000, ClickDifficulty hard (λ _, 0%nat))]
    (mounted [q1; q2]).

(** The quiz [started] after the connection has gone at 3 s. *)
Definition offline : World := step "card" 3000 (OnlineStatus false) started.

(** The scenario of a medium quiz on five questions: the first question shown is answered correctly, the second is left to
    time out (twenty ticks), and the quiz is submitted by hand on the
    third: two questions were never reached, and the score is 1 out of 5,
    20 percent. *)
Definition five : list Question :=
  [q1; q2;
   {| number := 3; question := "3 + 3 = ?"; choices := ["A. 6"; "B. 7"];
      correct_answer := "A" |};
   {| number := 4; question := "4 + 4 = ?"; choices := ["A. 9"; "B. 8"];
      correct_answer := "B" |};
   {| number := 5; question := "5 + 5 = ?"; choices := ["A. 10"; "B. 11"];
      correct_answer := "A" |}].

Definition scenario : World :=
  run "card"
    ([(1000, ClickSidebarQuiz); (2000, ClickDifficulty medium (λ _, 0%nat));
      (3000, ClickChoice "B"); (4000, ClickShowAnswer); (5000, ClickNext)]
     ++ imap (λ i e, (6000 + 1000 * Z.of_nat i, e)) (replicate 20 QuizTimerTick)
     ++ [(30000, ClickSubmitOrBack)])
    (mounted five).

End Quiz.

(** ** services/apiOffline.ts: the offline store and the fetches that fall
    back on it *)

Module OfflineStorage.

(** [String.prototype.includes] *)
Fixpoint includes (search s : string) : bool :=
  String.prefix search s
  || match s with
     | EmptyString => false
     | String _ s' => includes search s'
     end.

Record ParsedData := {
  total_questions : Z;
  questions_with_answers : Z;
  questions_without_answers : Z;
  missing_numbers : list Z;
  questions : list Quiz.Question
}.

Record OfflineFlashcard := {
  fc_id : string;
  fc_filename : string;
  fc_category : string;
  fc_uploader : string;
  fc_createdAt : string;
  parsedData : ParsedData
}.

(** [FlashcardItem] of services/api. *)
Record FlashcardItem := {
  item_id : string;
  item_filename : string;
  item_category : string;
  item_uploader : string;
  item_createdAt : string;
  item_url : option string;
  item_totalQuestions : option Z
}.

(** An entry of the sync queue; [q_id] is the number whose decimal text
    [Date.now().toString()] is, and [q_data] the payload. *)
Record QueuedAction := {
  q_id : Z;
  q_action : string;
  q_data : string;
  q_timestamp : Z
}.

(** What the class keeps in [localStorage]: the JSON text under a key is
    taken for the value it encodes, a [StorageItem] with its [timestamp]
    and [data], or the array of queued actions. *)
Inductive Stored :=
| FlashcardsList (timestamp : Z) (data : list FlashcardItem)
| FlashcardData (timestamp : Z) (data : OfflineFlashcard)
| SyncQueue (queue : list QueuedAction).

(** The [OfflineStorage] object: [isAvailable], set once by the
    constructor, and the [localStorage] behind it. *)
Record Store := {
  isAvailable : bool;
  items : gmap string Stored
}.

Definition STORAGE_PREFIX : string := "prepwise_offline_".
Definition FLASHCARD_KEY : string := "flashcards_list".
Definition FLASHCARD_DATA_KEY : string := "flashcard_data_".
Definition SYNC_QUEUE_KEY : string := "sync_queue".

Definition getKey (key : string) : string := String.append STORAGE_PREFIX key.

Definition dataKey (flashcardId : string) : string :=
  getKey (String.append FLASHCARD_DATA_KEY flashcardId).

(** [localStorage.setItem] inside [try]: [throws] tells whether the call
    throws (a full quota); the method then returns [false] and the store
    is as before. *)
Definition setItem (throws : bool) (key : string) (value : Stored) (st : Store) :
    bool * Store :=
  if negb (isAvailable st) then (false, st)
  else if throws then (false, st)
  else (true, {| isAvailable := true; items := <[key := value]> (items st) |}).

Definition setFlashcardsList (now : Z) (throws : bool) (flashcards : list FlashcardItem)
    (st : Store) : bool * Store :=
  setItem throws (getKey FLASHCARD_KEY) (FlashcardsList now flashcards) st.

(** The getters return [item.data] of the parsed text; the class writes
    nothing but a flashcard list under the list key and nothing but
    flashcard data under a data key. *)
Definition getFlashcardsList (st : Store) : option (list FlashcardItem) :=
  if negb (isAvailable st) then None
  else match items st !! getKey FLASHCARD_KEY with
       | Some (FlashcardsList _ data) => Some data
       | _ => None
       end.

Definition setFlashcardData (now : Z) (throws : bool) (flashcardId : string)
    (data : OfflineFlashcard) (st : Store) : bool * Store :=
  setItem throws (dataKey flashcardId) (FlashcardData now data) st.

Definition getFlashcardData (flashcardId : string) (st : Store) : option OfflineFlashcard :=
  if negb (isAvailable st) then None
  else match items st !! dataKey flashcardId with
       | Some (FlashcardData _ data) => Some data
       | _ => None
       end.

Definition deleteFlashcardData (flashcardId : string) (st : Store) : bool * Store :=
  if negb (isAvailable st) then (false, st)
  else (true, {| isAvailable := true; items := delete (dataKey flashcardId) (items st) |}).

(** [clearFlashcardCache]: every key that includes the prefix and the
    data-key marker goes, and so does the list. *)
Definition isFlashcardDataKey (key : string) : bool :=
  includes STORAGE_PREFIX key && includes FLASHCARD_DATA_KEY key.

Definition clearFlashcardCache (st : Store) : bool * Store :=
  if negb (isAvailable st) then (false, st)
  else
    (true,
     {| isAvailable := true;
        items := delete (getKey FLASHCARD_KEY)
                   (filter (λ kv, isFlashcardDataKey kv.1 = false) (items st)) |}).

Definition getSyncQueue (st : Store) : list QueuedAction :=
  if negb (isAvailable st) then []
  else match items st !! getKey SYNC_QUEUE_KEY with
       | Some (SyncQueue queue) => queue
       | _ => []
       end.

Definition queueForSync (now : Z) (throws : bool) (action data : string) (st : Store) :
    bool * Store :=
  if negb (isAvailable st) then (false, st)
  else
    let queue := getSyncQueue st ++
                 [{| q_id := now; q_action := action; q_data := data; q_timestamp := now |}] in
    setItem throws (getKey SYNC_QUEUE_KEY) (SyncQueue queue) st.

Definition clearSyncQueue (st : Store) : bool * Store :=
  if negb (isAvailable st) then (false, st)
  else (true, {| isAvailable := true; items := delete (getKey SYNC_QUEUE_KEY) (items st) |}).

(** *** The fetches with offline support

    [online] is what the request to the server gave, [None] when it threw.
    The result is [None] when the function rethrows the error. *)
Record Fetched (A : Type) := {
  fetched_data : A;
  isOffline : bool;
  fromCache : bool
}.
Arguments fetched_data {A}.
Arguments isOffline {A}.
Arguments fromCache {A}.

Definition getFlashcardsWithOfflineSupport (now : Z) (throws : bool)
    (online : option (list FlashcardItem)) (st : Store) :
    Store * option (Fetched (list FlashcardItem)) :=
  match online with
  | Some flashcards =>
      ((setFlashcardsList now throws flashcards st).2,
       Some {| fetched_data := flashcards; isOffline := false; fromCache := false |})
  | None =>
      match getFlashcardsList st with
      | Some cached =>
          (st, Some {| fetched_data := cached; isOffline := true; fromCache := true |})
      | None => (st, None)
      end
  end.

Definition getFlashcardDataWithOfflineSupport (now : Z) (throws : bool)
    (flashcardId : string) (online : option OfflineFlashcard) (st : Store) :
    Store * option (Fetched OfflineFlashcard) :=
  match online with
  | Some data =>
      ((setFlashcardData now throws flashcardId data st).2,
       Some {| fetched_data := data; isOffline := false; fromCache := false |})
  | None =>
      match getFlashcardData flashcardId st with
      | Some cached =>
          (st, Some {| fetched_data := cached; isOffline := true; fromCache := true |})
      | None => (st, None)
      end
  end.

(** A flashcard used as an example. *)
Definition card7 : OfflineFlashcard :=
  {| fc_id := "7"; fc_filename := "sums.pdf"; fc_category := "math";
     fc_uploader := "ann"; fc_createdAt := "2025-01-01T00:00:00Z";
     parsedData := {| total_questions := 2; questions_with_answers := 2;
                      questions_without_answers := 0; missing_numbers := [];
                      questions := [Quiz.q1; Quiz.q2] |} |}.

Definition emptyStore : Store := {| isAvailable := true; items := ∅ |}.

End OfflineStorage.

(** * Properties *)

(** ** The JavaScript library: sorting is a stable sort, the map collapses
    repeated keys *)

Module JsFacts.

Import Js.

Section ArraySort.
Context {A : Type}.
Variable compareFn : A → A → Z.

Local Abbreviation sort_insert := (Js.sort_insert compareFn).
Local Abbreviation sort := (Js.sort compareFn).
Local Abbreviation precedes := (Js.precedes compareFn).
Local Abbreviation consistent := (Js.consistent compareFn).

Lemma sort_insert_Permutation x l : sort_insert x l ≡ₚ x :: l.
Proof.
  induction l as [|y l IH]; simpl; [done|].
  destruct (compareFn x y <=? 0); [done|].
  rewrite IH. apply Permutation_swap.
Qed.

Lemma sort_Permutation l : sort l ≡ₚ l.
Proof.
  induction l as [|x l IH]; simpl; [done|].
  by rewrite sort_insert_Permutation, IH.
Qed.

Lemma sort_length l : length (sort l) = length l.
Proof. by rewrite sort_Permutation. Qed.

Lemma sort_insert_HdRel a x l :
  precedes a x → HdRel precedes a l → HdRel precedes a (sort_insert x l).
Proof.
  intros Hax Hal. destruct l as [|y l]; simpl; [by constructor|].
  destruct (compareFn x y <=? 0); constructor; [done|].
  by inversion Hal.
Qed.

Lemma sort_insert_Sorted x l :
  consistent → Sorted precedes l → Sorted precedes (sort_insert x l).
Proof.
  intros Hc. induction 1 as [|y l Hl IH Hd]; simpl.
  - by repeat constructor.
  - destruct (compareFn x y <=? 0) eqn:E.
    + constructor; [by constructor|]. constructor. unfold Js.precedes. lia.
    + constructor; [done|]. apply sort_insert_HdRel; [|done].
      apply (Js.cmp_total _ Hc). lia.
Qed.

Lemma sort_Sorted l : consistent → Sorted precedes (sort l).
Proof.
  intros Hc. induction l as [|x l IH]; simpl; [constructor|].
  by apply sort_insert_Sorted.
Qed.

Lemma sort_StronglySorted l : consistent → StronglySorted precedes (sort l).
Proof.
  intros Hc. apply Sorted_StronglySorted; [|by apply sort_Sorted].
  intros a b c. apply (Js.cmp_trans _ Hc).
Qed.

(** Stability: the elements that compare equal to [a] come out in the
    order they went in. *)
Lemma sort_insert_filter a x l :
  consistent →
  filter (λ b, compareFn a b = 0) (sort_insert x l)
  = filter (λ b, compareFn a b = 0) (x :: l).
Proof.
  intros Hc. induction l as [|y l IH]; simpl; [done|].
  destruct (compareFn x y <=? 0) eqn:E; [done|].
  rewrite filter_cons, IH, !filter_cons.
  destruct (decide (compareFn a x = 0)) as [Hx|Hx]; [|done].
  destruct (decide (compareFn a y = 0)) as [Hy|Hy]; [|done].
  exfalso. apply (Js.cmp_equiv _ Hc a x y); [done|lia|done].
Qed.

Lemma sort_stable a l :
  consistent →
  filter (λ b, compareFn a b = 0) (sort l) = filter (λ b, compareFn a b = 0) l.
Proof.
  intros Hc. induction l as [|x l IH]; simpl; [done|].
  by rewrite sort_insert_filter, !filter_cons, IH.
Qed.

(** A list that is already in order is left as it is. *)
Lemma sort_insert_HdRel_id x l : HdRel precedes x l → sort_insert x l = x :: l.
Proof.
  destruct 1 as [|y l Hxy]; simpl; [done|].
  unfold Js.precedes in Hxy. destruct (Z.leb_spec (compareFn x y) 0); [done|lia].
Qed.

Lemma sort_Sorted_id l : Sorted precedes l → sort l = l.
Proof.
  induction 1 as [|x l Hl IH Hd]; simpl; [done|].
  rewrite IH. by apply sort_insert_HdRel_id.
Qed.

Lemma sort_idempotent l : consistent → sort (sort l) = sort l.
Proof. intros Hc. by apply sort_Sorted_id, sort_Sorted. Qed.
End ArraySort.

Lemma StronglySorted_impl {A} (R1 R2 : relation A) l :
  (∀ a b, R1 a b → R2 a b) → StronglySorted R1 l → StronglySorted R2 l.
Proof.
  intros HR. induction 1 as [|x l Hl IH Hx]; constructor; [done|].
  eapply Forall_impl; [done|]. auto.
Qed.

Section Filter.
Context {A : Type} (P Q : A → Prop) `{!∀ x, Decision (P x), !∀ x, Decision (Q x)}.

Lemma filter_all (l : list A) : Forall P l → filter P l = l.
Proof.
  induction 1 as [|x l Hx Hl IH]; [done|].
  by rewrite filter_cons_True, IH.
Qed.

Lemma filter_none (l : list A) : Forall (λ x, ¬ P x) l → filter P l = [].
Proof.
  induction 1 as [|x l Hx Hl IH]; [done|].
  by rewrite filter_cons_False.
Qed.

Lemma filter_ext_elem_of (l : list A) :
  (∀ x, x ∈ l → P x ↔ Q x) → filter P l = filter Q l.
Proof.
  induction l as [|x l IH]; intros HPQ; [done|].
  rewrite !filter_cons, IH by (intros; apply HPQ; set_solver).
  destruct (decide (P x)) as [HP|HP], (decide (Q x)) as [HQ|HQ]; try done;
    exfalso; apply (HPQ x) in HP || apply HP, (HPQ x); done || set_solver.
Qed.
End Filter.

(** [Map<string, V>]: entries are kept in the order their keys were first
    set; [set] on a key that is present replaces the value where it
    stands.  [Array.from(map.values())] lists the values in that order. *)
Section OrderedMap.
Context {V : Type}.
Implicit Types (k : string) (v x : V) (m : list (string * V)) (xs : list V).

Lemma Map_set_fresh k v m : k ∉ m.*1 → Map_set k v m = m ++ [(k, v)].
Proof.
  induction m as [|[k' v'] m IH]; intros Hk; [done|].
  cbn [Map_set]. destruct (decide (k = k')) as [->|Hne]; [set_solver|].
  cbn [app]. f_equal. apply IH. set_solver.
Qed.

Lemma Map_set_present k v m : k ∈ m.*1 → (Map_set k v m).*1 = m.*1.
Proof.
  induction m as [|[k' v'] m IH]; intros Hk; [set_solver|].
  cbn [Map_set]. destruct (decide (k = k')) as [->|Hne]; [done|].
  rewrite !fmap_cons. f_equal. apply IH. set_solver.
Qed.

Lemma Map_set_elem_of k v m k' :
  k' ∈ (Map_set k v m).*1 ↔ k' = k ∨ k' ∈ m.*1.
Proof.
  destruct (decide (k ∈ m.*1)) as [Hin|Hin].
  - rewrite Map_set_present by done. set_solver.
  - rewrite Map_set_fresh, fmap_app by done. set_solver.
Qed.

Lemma Map_set_NoDup k v m : NoDup m.*1 → NoDup (Map_set k v m).*1.
Proof.
  intros Hm. destruct (decide (k ∈ m.*1)) as [Hin|Hin].
  - by rewrite Map_set_present.
  - rewrite Map_set_fresh, fmap_app by done.
    apply NoDup_app. split_and!; [done|set_solver|apply NoDup_singleton].
Qed.

Lemma Map_set_keyed (key : V → string) x m :
  Forall (λ kv, kv.1 = key kv.2) m →
  Forall (λ kv, kv.1 = key kv.2) (Map_set (key x) x m).
Proof.
  induction 1 as [|[k' v'] m Hkv Hm IH]; simpl; [by repeat constructor|].
  destruct (decide (key x = k')); constructor; done.
Qed.

Lemma collect_invariant (key : V → string) xs m :
  NoDup m.*1 → Forall (λ kv, kv.1 = key kv.2) m →
  NoDup (collect key xs m).*1 ∧ Forall (λ kv, kv.1 = key kv.2) (collect key xs m).
Proof.
  revert m. induction xs as [|x xs IH]; intros m Hnd Hk; simpl; [done|].
  apply IH; [by apply Map_set_NoDup | by apply Map_set_keyed].
Qed.

Lemma keyed_values (key : V → string) m :
  Forall (λ kv, kv.1 = key kv.2) m → key <$> Map_values m = m.*1.
Proof.
  unfold Map_values. induction 1 as [|[k v] m Hkv Hm IH]; [done|].
  rewrite !fmap_cons, IH. simpl in *. by rewrite Hkv.
Qed.

Lemma collect_keys (key : V → string) xs m k :
  k ∈ (collect key xs m).*1 ↔ k ∈ m.*1 ∨ k ∈ key <$> xs.
Proof.
  revert m. induction xs as [|x xs IH]; intros m; simpl; [set_solver|].
  rewrite IH, Map_set_elem_of. set_solver.
Qed.

(** No two values of the result share a key. *)
Lemma dedupe_by_NoDup (key : V → string) xs : NoDup (key <$> dedupe_by key xs).
Proof.
  unfold dedupe_by. destruct (collect_invariant key xs []) as [Hnd Hk];
    [constructor|constructor|].
  by rewrite keyed_values.
Qed.

(** Every key of the input is kept, and no other. *)
Lemma dedupe_by_keys (key : V → string) xs k :
  k ∈ key <$> dedupe_by key xs ↔ k ∈ key <$> xs.
Proof.
  unfold dedupe_by. destruct (collect_invariant key xs []) as [Hnd Hk];
    [constructor|constructor|].
  rewrite keyed_values by done. rewrite collect_keys. set_solver.
Qed.

Lemma collect_fresh (key : V → string) xs m :
  NoDup (m.*1 ++ (key <$> xs)) →
  collect key xs m = m ++ ((λ x, (key x, x)) <$> xs).
Proof.
  revert m. induction xs as [|x xs IH]; intros m Hnd; simpl.
  - by rewrite app_nil_r.
  - apply NoDup_app in Hnd as (Hm & Hdisj & Hxs).
    apply NoDup_cons in Hxs as [Hx Hxs].
    rewrite Map_set_fresh by (intros ?; eapply Hdisj; [done|set_solver]).
    rewrite IH.
    + by rewrite <-app_assoc.
    + rewrite fmap_app. simpl. rewrite <-app_assoc. simpl.
      apply NoDup_app. split_and!; [done| |by apply NoDup_cons].
      intros k Hk. apply Hdisj. done.
Qed.

(** A list without repeated keys passes through unchanged. *)
Lemma dedupe_by_NoDup_id (key : V → string) xs :
  NoDup (key <$> xs) → dedupe_by key xs = xs.
Proof.
  intros Hnd. unfold dedupe_by, Map_values. rewrite collect_fresh by done.
  simpl. rewrite <-list_fmap_compose. apply list_fmap_id.
Qed.

Lemma dedupe_by_idempotent (key : V → string) xs :
  dedupe_by key (dedupe_by key xs) = dedupe_by key xs.
Proof. apply dedupe_by_NoDup_id, dedupe_by_NoDup. Qed.

(** The values of the result are values of the input. *)
Lemma Map_set_values k v m x :
  x ∈ Map_values (Map_set k v m) → x = v ∨ x ∈ Map_values m.
Proof.
  unfold Map_values. induction m as [|[k' v'] m IH]; simpl; [set_solver|].
  destruct (decide (k = k')); simpl; set_solver.
Qed.

Lemma dedupe_by_subseteq (key : V → string) xs x :
  x ∈ dedupe_by key xs → x ∈ xs.
Proof.
  unfold dedupe_by. assert (∀ m, x ∈ Map_values (collect key xs m) →
    x ∈ Map_values m ∨ x ∈ xs) as H.
  { induction xs as [|y xs IH]; intros m; simpl; [by left|].
    intros [Hm| ]%IH; [|set_solver].
    apply Map_set_values in Hm. set_solver. }
  intros [Hx|Hx]%H; [|done]. by apply elem_of_nil in Hx.
Qed.
End OrderedMap.


(** *** Which value a repeated key keeps *)

Section LastWins.
Context {V : Type} (key : V → string).
Implicit Types (k : string) (v x : V) (m : list (string * V)) (xs : list V).

Lemma Map_set_elem_of_pair k0 x0 m k v :
  NoDup m.*1 →
  (k, v) ∈ Map_set k0 x0 m ↔ (k = k0 ∧ v = x0) ∨ (k ≠ k0 ∧ (k, v) ∈ m).
Proof.
  induction m as [|[k' v'] m IH]; intros Hnd.
  - cbn [Map_set]. set_solver.
  - rewrite fmap_cons in Hnd. apply NoDup_cons in Hnd as [Hk' Hnd]. cbn [Map_set fst] in *.
    assert (∀ w, (k', w) ∉ m) as Hfresh.
    { intros w Hin. apply Hk'. by apply (list_elem_of_fmap_2 fst) in Hin. }
    destruct (decide (k0 = k')) as [->|Hne].
    + rewrite !elem_of_cons. naive_solver.
    + rewrite !elem_of_cons, IH by done. naive_solver.
Qed.

Lemma last_filter_cons (P : V → Prop) `{!∀ x, Decision (P x)} x xs v :
  last (filter P (x :: xs)) = Some v ↔
  last (filter P xs) = Some v ∨ (filter P xs = [] ∧ P x ∧ v = x).
Proof.
  rewrite filter_cons. destruct (decide (P x)) as [HP|HP].
  - destruct (filter P xs) as [|y ys] eqn:E.
    + simpl. naive_solver.
    + rewrite last_cons_cons. naive_solver.
  - naive_solver.
Qed.

Lemma collect_last xs m k v :
  NoDup m.*1 →
  (k, v) ∈ collect key xs m ↔
  (key v = k ∧ last (filter (λ y, key y = k) xs) = Some v)
  ∨ (filter (λ y, key y = k) xs = [] ∧ (k, v) ∈ m).
Proof.
  revert m. induction xs as [|x xs IH]; intros m Hnd.
  - simpl. naive_solver.
  - cbn [collect foldl]. fold (collect key xs (Map_set (key x) x m)).
    rewrite IH by (by apply Map_set_NoDup).
    rewrite Map_set_elem_of_pair by done.
    rewrite last_filter_cons. rewrite filter_cons.
    destruct (decide (key x = k)) as [Hx|Hx]; naive_solver.
Qed.

(** Of the entries that share a key, the pass keeps the last one. *)
Lemma dedupe_by_last xs x :
  x ∈ dedupe_by key xs ↔ last (filter (λ y, key y = key x) xs) = Some x.
Proof.
  unfold dedupe_by, Map_values. split.
  - intros [[k v] [-> Hin]]%list_elem_of_fmap. simpl.
    apply collect_last in Hin; [|constructor].
    destruct Hin as [[Hk Hl]|[_ Hin]]; [by rewrite Hk|by apply elem_of_nil in Hin].
  - intros Hl. apply list_elem_of_fmap. exists (key x, x). split; [done|].
    apply collect_last; [constructor|]. by left.
Qed.
End LastWins.

End JsFacts.

(** ** The roster shown after a presence fetch (C6) *)

Module RosterFacts.

Import Api Roster.

Lemma compareRoster_before a b : compareRoster a b ≤ 0 ↔ roster_before a b.
Proof.
  unfold compareRoster, roster_before.
  destruct (online a), (online b); simpl; split; intros H; try lia;
    try (right; split; [done|lia]); try (by left);
    destruct H as [[? ?]|[? ?]]; done || lia.
Qed.

Lemma compareRoster_tied a b : compareRoster a b = 0 ↔ tied a b.
Proof.
  unfold compareRoster, tied.
  destruct (online a), (online b); simpl; split; intros H; try lia;
    try (split; [done|lia]); destruct H; done || lia.
Qed.

Lemma compareRoster_consistent : Js.consistent compareRoster.
Proof.
  split; unfold compareRoster.
  - intros a b. destruct (online a), (online b); simpl; lia.
  - intros a b c. destruct (online a), (online b), (online c); simpl; lia.
  - intros a x y. destruct (online a), (online x), (online y); simpl; lia.
Qed.

Lemma sortRoster_StronglySorted users : StronglySorted roster_before (sortRoster users).
Proof.
  eapply (JsFacts.StronglySorted_impl (Js.precedes compareRoster)).
  - intros a b. apply compareRoster_before.
  - apply JsFacts.sort_StronglySorted, compareRoster_consistent.
Qed.

Lemma sortRoster_stable a users :
  filter (tied a) (sortRoster users) = filter (tied a) users.
Proof.
  unfold sortRoster.
  rewrite <-(list_filter_iff (λ b, compareRoster a b = 0) (tied a))
    by (intros; apply compareRoster_tied).
  rewrite <-(list_filter_iff (λ b, compareRoster a b = 0) (tied a) users)
    by (intros; apply compareRoster_tied).
  apply JsFacts.sort_stable, compareRoster_consistent.
Qed.

(** C6, as stated, fails: for the snapshot [bob; alice; alice] (all online,
    no [lastSeen]) the roster shown is the snapshot itself, which neither
    puts tied entries in username order nor is free of repeated
    usernames. *)
Lemma mergeRoster_no_tiebreak_no_dedupe :
  mergeRoster [] [bob; alice; alice] = [bob; alice; alice]
  ∧ ¬ StronglySorted roster_before_by_name (mergeRoster [] [bob; alice; alice])
  ∧ ¬ NoDup (username <$> mergeRoster [] [bob; alice; alice]).
Proof.
  split; [reflexivity|]. split.
  - intros H. change (mergeRoster [] [bob; alice; alice]) with [bob; alice; alice] in H.
    apply StronglySorted_inv in H as [_ H].
    apply Forall_cons in H as [[_ H] _].
    assert (tied bob alice) as Ht by done.
    specialize (H Ht). discriminate H.
  - change (username <$> mergeRoster [] [bob; alice; alice])
      with ["bob"; "alice"; "alice"]%string.
    intros H. apply NoDup_cons in H as [_ H]. apply NoDup_cons in H as [H _].
    set_solver.
Qed.

(** C6, amended: the roster shown after a fetch is determined by the
    fetched snapshot alone; it is a rearrangement of that snapshot (so a
    username occurs as often as in the snapshot), it is sorted online-first
    and then by [lastSeen] descending, and tied entries keep the order the
    snapshot gave them. *)
Theorem mergeRoster_sorted_stable (previous incoming : list UserInfo) :
  mergeRoster previous incoming = sortRoster incoming
  ∧ mergeRoster previous incoming ≡ₚ incoming
  ∧ username <$> mergeRoster previous incoming ≡ₚ username <$> incoming
  ∧ StronglySorted roster_before (mergeRoster previous incoming)
  ∧ ∀ a, filter (tied a) (mergeRoster previous incoming) = filter (tied a) incoming.
Proof.
  unfold mergeRoster. split_and!.
  - done.
  - apply JsFacts.sort_Permutation.
  - apply fmap_Permutation, JsFacts.sort_Permutation.
  - apply sortRoster_StronglySorted.
  - intros a. apply sortRoster_stable.
Qed.

(** *** The online block of the roster *)

Lemma online_first_partition l :
  StronglySorted roster_before l →
  l = filter (λ u, online u = true) l ++ filter (λ u, online u = false) l.
Proof.
  induction 1 as [|x l Hl IH Hx]; [done|].
  rewrite !filter_cons. destruct (online x) eqn:Hon.
  - rewrite decide_True, decide_False by done. simpl. by rewrite <-IH.
  - rewrite decide_False, decide_True by done.
    assert (Forall (λ u, online u = false) l) as Hoff.
    { eapply Forall_impl; [exact Hx|]. intros b [[Ht _]|[He _]]; simpl in *; congruence. }
    rewrite (JsFacts.filter_none (λ u, online u = true) l).
    + simpl. by rewrite JsFacts.filter_all.
    + eapply Forall_impl; [exact Hoff|]. simpl. intros b Hb. congruence.
Qed.

Lemma onlineCount_Permutation l1 l2 : l1 ≡ₚ l2 → onlineCount l1 = onlineCount l2.
Proof. intros H. unfold onlineCount. by rewrite H. Qed.

(** X1: The summary line counts the online entries, and the rows of the sorted
    roster begin with exactly that many online entries: every row after
    them is offline.  Sorting changes neither number of the summary. *)
Theorem sortRoster_online_block (users : list UserInfo) :
  Forall (λ u, online u = true) (take (onlineCount users) (sortRoster users))
  ∧ Forall (λ u, online u = false) (drop (onlineCount users) (sortRoster users))
  ∧ summary (sortRoster users) = summary users.
Proof.
  pose proof (online_first_partition _ (sortRoster_StronglySorted users)) as Hsplit.
  assert (onlineCount users = length (filter (λ u, online u = true) (sortRoster users)))
    as Hlen.
  { symmetry. apply onlineCount_Permutation, JsFacts.sort_Permutation. }
  split_and!.
  - rewrite Hsplit, Hlen, take_app_length.
    apply Forall_forall. by intros u [Hu _]%list_elem_of_filter.
  - rewrite Hsplit, Hlen, drop_app_length.
    apply Forall_forall. by intros u [Hu _]%list_elem_of_filter.
  - unfold summary. f_equal.
    + apply onlineCount_Permutation, JsFacts.sort_Permutation.
    + apply JsFacts.sort_length.
Qed.

End RosterFacts.

(** ** The message list of a conversation (C7) and its unread badge (C9) *)

Module ChatFacts.

Import Chat.
Import Api.

Lemma compareCreatedAt_consistent : Js.consistent compareCreatedAt.
Proof. split; unfold compareCreatedAt; intros; lia. Qed.

Lemma loadMessages_NoDup response : NoDup (id <$> loadMessages response).
Proof.
  unfold loadMessages. rewrite JsFacts.sort_Permutation. apply JsFacts.dedupe_by_NoDup.
Qed.

Lemma loadMessages_sorted response : StronglySorted createdAt_le (loadMessages response).
Proof.
  eapply (JsFacts.StronglySorted_impl (Js.precedes compareCreatedAt)).
  - unfold Js.precedes, compareCreatedAt, createdAt_le. intros; lia.
  - apply JsFacts.sort_StronglySorted, compareCreatedAt_consistent.
Qed.

Lemma loadMessages_ids response i :
  i ∈ id <$> loadMessages response ↔ i ∈ id <$> response.
Proof.
  unfold loadMessages. rewrite JsFacts.sort_Permutation. apply JsFacts.dedupe_by_keys.
Qed.

(** Running the dedupe-and-sort pass over its own output changes nothing. *)
Lemma loadMessages_fixpoint response :
  loadMessages (loadMessages response) = loadMessages response.
Proof.
  unfold loadMessages at 1.
  rewrite JsFacts.dedupe_by_NoDup_id by apply loadMessages_NoDup.
  apply JsFacts.sort_idempotent, compareCreatedAt_consistent.
Qed.

(** Adding the sent message is the dedupe pass over the list with the
    message appended: an id the list already holds is not inserted again. *)
Lemma addSent_spec prev sent : addSent prev sent = Js.dedupe_by id (prev ++ [sent]).
Proof. unfold addSent, Js.dedupe_by, Js.collect. by rewrite foldl_app. Qed.

(** C7: the list kept for a conversation after merging a polled snapshot
    has one entry per message id of the snapshot and is in ascending
    [createdAt] order; merging the same snapshot again gives the same list,
    and so does the dedupe-and-sort pass the render applies to it. *)
Theorem mergeMessages_idempotent (existing snapshot : list Message) :
  NoDup (id <$> mergeMessages existing snapshot)
  ∧ (∀ i, i ∈ id <$> mergeMessages existing snapshot ↔ i ∈ id <$> snapshot)
  ∧ StronglySorted createdAt_le (mergeMessages existing snapshot)
  ∧ mergeMessages (mergeMessages existing snapshot) snapshot
    = mergeMessages existing snapshot
  ∧ messagesForRender (mergeMessages existing snapshot)
    = mergeMessages existing snapshot
  ∧ loadMessages (mergeMessages existing snapshot) = mergeMessages existing snapshot.
Proof.
  unfold mergeMessages, messagesForRender. split_and!.
  - apply loadMessages_NoDup.
  - apply loadMessages_ids.
  - apply loadMessages_sorted.
  - done.
  - apply loadMessages_fixpoint.
  - apply loadMessages_fixpoint.
Qed.

(** C9, as stated, fails: with three unread messages in the selected
    conversation, the badge still reads 3 while the mark-read request is
    pending, and it still reads 3 after the request has failed: the local
    count was never zeroed. *)
Lemma onFocus_not_zeroed_before_confirmation :
  unreadOf "c1" (whilePending (Some me) (Some "c1") [c1]) = [3]
  ∧ unreadOf "c1" (afterSettled (Some me) (Some "c1") Rejected [c1]) = [3]
  ∧ unreadOf "c1" (afterSettled (Some me) (Some "c1") Fulfilled [c1]) = [0].
Proof. by vm_compute. Qed.

Lemma zeroUnread_id sel c : conv_id (zeroUnread sel c) = conv_id c.
Proof. unfold zeroUnread. by case_decide. Qed.

Lemma zeroUnread_selected sel c : conv_id c = sel → unreadCount (zeroUnread sel c) = 0.
Proof. intros Hc. unfold zeroUnread. by rewrite decide_True. Qed.

Lemma unreadOf_zeroUnread sel conversations :
  Forall (λ n, n = 0) (unreadOf sel (zeroUnread sel <$> conversations)).
Proof.
  unfold unreadOf. induction conversations as [|c cs IH]; [constructor|].
  rewrite fmap_cons, filter_cons.
  destruct (decide (conv_id (zeroUnread sel c) = sel)) as [Hc|Hc]; [|done].
  rewrite fmap_cons. constructor; [|done].
  apply zeroUnread_selected. by rewrite zeroUnread_id in Hc.
Qed.

Lemma zeroUnread_other sel c : conv_id c ≠ sel → zeroUnread sel c = c.
Proof. intros Hc. unfold zeroUnread. by rewrite decide_False. Qed.

(** With a conversation selected (its id is not empty), the handler is the
    request followed by what its outcome decides. *)
Lemma onFocus_selected (s : Session) (sel : ConversationId) :
  sel ≠ "" →
  onFocus (Some s) (Some sel)
  = AwaitMarkRead (s_token s) sel (λ settled,
      match settled with
      | Fulfilled => SetConversations (λ prev, zeroUnread sel <$> prev) Return
      | Rejected => Return
      end).
Proof.
  intros Hsel. unfold onFocus, truthyId. by rewrite bool_decide_eq_false_2.
Qed.

Lemma afterSettled_Fulfilled (s : Session) (sel : ConversationId)
    (conversations : list ConversationSummary) :
  sel ≠ "" →
  afterSettled (Some s) (Some sel) Fulfilled conversations = zeroUnread sel <$> conversations.
Proof. intros Hsel. unfold afterSettled. by rewrite onFocus_selected. Qed.

(** C9, amended: focusing the input while a conversation is selected (its
    id is not empty) issues the mark-read request and leaves the local
    unread counts as they are while the request is pending; when the
    request succeeds the selected conversation's count is set to 0 and no
    other conversation changes; when it fails the counts stay as they
    were.  With no conversation selected (no id, or the empty id) nothing
    is requested and nothing changes. *)
Theorem onFocus_zeroes_after_success (s : Session) (sel : ConversationId)
    (conversations : list ConversationSummary) :
  sel ≠ "" →
  (∃ next, run (onFocus (Some s) (Some sel)) conversations
           = (conversations, Some (sel, next)))
  ∧ whilePending (Some s) (Some sel) conversations = conversations
  ∧ afterSettled (Some s) (Some sel) Fulfilled conversations
    = zeroUnread sel <$> conversations
  ∧ Forall (λ n, n = 0)
      (unreadOf sel (afterSettled (Some s) (Some sel) Fulfilled conversations))
  ∧ (∀ c, c ∈ conversations → conv_id c ≠ sel →
          c ∈ afterSettled (Some s) (Some sel) Fulfilled conversations)
  ∧ afterSettled (Some s) (Some sel) Rejected conversations = conversations
  ∧ (∀ unselected, unselected = None ∨ unselected = Some "" →
        run (onFocus (Some s) unselected) conversations = (conversations, None)
        ∧ ∀ settled, afterSettled (Some s) unselected settled conversations
                     = conversations).
Proof.
  intros Hsel. rewrite afterSettled_Fulfilled by done.
  unfold whilePending, afterSettled. rewrite onFocus_selected by done.
  split_and!.
  - by eexists.
  - done.
  - done.
  - apply unreadOf_zeroUnread.
  - intros c Hc Hne. apply list_elem_of_fmap. exists c. by rewrite zeroUnread_other.
  - done.
  - by intros unselected [-> | ->].
Qed.

Lemma onFocus_zeroes_after_success_witness :
  c2 ∈ afterSettled (Some me) (Some "c1") Fulfilled [c1; c2].
Proof.
  destruct (onFocus_zeroes_after_success me "c1" [c1; c2]) as (_ & _ & _ & _ & H & _).
  - done.
  - apply (H c2); [set_solver|done].
Defined.

(** *** The conversation list and the messages: more of the widget *)

(** X2: When a fetched list names an id more than once, the entry kept for it
    is the last one fetched, for conversations and for messages alike. *)
Theorem last_write_wins (fetched : list ConversationSummary) (response : list Message) :
  (∀ c, c ∈ dedupedConversations fetched
        ↔ last (filter (λ y, conv_id y = conv_id c) fetched) = Some c)
  ∧ (∀ c preferredId selectedId,
        c ∈ (loadConversations preferredId selectedId fetched).1
        ↔ last (filter (λ y, conv_id y = conv_id c) fetched) = Some c)
  ∧ (∀ m, m ∈ loadMessages response
        ↔ last (filter (λ y, id y = id m) response) = Some m).
Proof.
  split_and!.
  - intros c. apply JsFacts.dedupe_by_last.
  - intros c preferredId selectedId.
    assert ((loadConversations preferredId selectedId fetched).1
            = Js.dedupe_by conv_id fetched) as ->.
    { unfold loadConversations. by repeat case_match. }
    apply JsFacts.dedupe_by_last.
  - intros m. unfold loadMessages. rewrite JsFacts.sort_Permutation.
    apply JsFacts.dedupe_by_last.
Qed.

(** X3: After a poll of the conversation list (the interval calls
    [loadConversations(selectedId)]): when the
    response is not empty the selection names one of its conversations, the
    one selected before if the response still has it and the first one
    otherwise; when the response is empty the selection stays as it was. *)
Theorem loadConversations_selection (selectedId : option ConversationId)
    (response : list ConversationSummary) :
  let selected' := (loadConversations selectedId selectedId response).2 in
  (response ≠ [] → ∃ i, selected' = Some i ∧ i ∈ conv_id <$> response)
  ∧ (∀ i, selectedId = Some i → i ≠ "" → i ∈ conv_id <$> response →
          selected' = Some i)
  ∧ (∀ first rest, response = first :: rest →
          (∀ i, selectedId = Some i → i ≠ "" → i ∉ conv_id <$> response) →
          selected' = Some (conv_id first))
  ∧ (response = [] → selected' = selectedId).
Proof.
  cbv zeta.
  assert (loadConversations selectedId selectedId response
          = loadConversations None selectedId response) as -> by (by destruct selectedId).
  unfold loadConversations.
  assert (∀ i, Some i ∈ Some <$> (conv_id <$> response) ↔ i ∈ conv_id <$> response) as Hsome.
  { intros i. rewrite list_elem_of_fmap. naive_solver. }
  split_and!.
  - intros Hne. destruct response as [|first rest]; [done|].
    destruct selectedId as [i|]; simpl.
    + destruct (decide (i = "")) as [->|Hi].
      * rewrite bool_decide_eq_true_2 by done. simpl.
        exists (conv_id first). split; [done|]. set_solver.
      * rewrite (bool_decide_eq_false_2 (i = "")) by done. simpl.
        destruct (decide (Some i ∈ Some <$> (conv_id <$> first :: rest))) as [Hin|Hin].
        -- rewrite bool_decide_eq_true_2 by done. simpl. exists i. split; [done|].
           by apply Hsome.
        -- rewrite bool_decide_eq_false_2 by done. simpl.
           exists (conv_id first). split; [done|]. set_solver.
    + exists (conv_id first). split; [done|]. set_solver.
  - intros i -> Hi Hin. destruct response as [|first rest]; [done|]. simpl.
    rewrite (bool_decide_eq_false_2 (i = "")) by done. simpl.
    rewrite bool_decide_eq_true_2; [done|]. by apply Hsome.
  - intros first rest -> Hout. destruct selectedId as [i|]; simpl; [|done].
    destruct (decide (i = "")) as [->|Hi].
    + by rewrite bool_decide_eq_true_2.
    + rewrite (bool_decide_eq_false_2 (i = "")) by done. simpl.
      rewrite bool_decide_eq_false_2; [done|].
      intros Hin%Hsome. by apply (Hout i).
  - by intros ->.
Qed.

Lemma zeroUnread_ids sel (cs : list ConversationSummary) :
  conv_id <$> (zeroUnread sel <$> cs) = conv_id <$> cs.
Proof.
  rewrite <-list_fmap_compose. apply list_fmap_ext. intros i c _. apply zeroUnread_id.
Qed.

(** X4: The handlers keep the ids of the conversation list distinct: a poll
    always stores a list without repeated ids, and deleting a conversation,
    opening a new group or zeroing a badge never introduces a repetition;
    the pass that removes repeated ids before rendering then has nothing to
    remove. *)
Theorem conversation_ids_stay_unique (st : ChatState) :
  NoDup (conv_id <$> conversations st) →
  (∀ preferredId response,
      NoDup (conv_id <$> (loadConversations preferredId (selectedId st) response).1))
  ∧ (∀ conversationId settled,
      NoDup (conv_id <$> conversations (deleteConversation conversationId settled st))
      ∧ (settled = Fulfilled →
         conversationId ∉ conv_id <$> conversations (deleteConversation conversationId settled st)))
  ∧ (∀ opened,
      NoDup (conv_id <$> conversations (createEmptyGroup opened st))
      ∧ conv_id opened ∈ conv_id <$> conversations (createEmptyGroup opened st))
  ∧ (∀ sel, NoDup (conv_id <$> (zeroUnread sel <$> conversations st)))
  ∧ dedupedConversations (conversations st) = conversations st.
Proof.
  intros Hnd. split_and!.
  - intros preferredId response.
    assert ((loadConversations preferredId (selectedId st) response).1
            = Js.dedupe_by conv_id response) as ->.
    { unfold loadConversations. by repeat case_match. }
    apply JsFacts.dedupe_by_NoDup.
  - intros conversationId settled.
    assert (∀ l : list ConversationSummary, NoDup (conv_id <$> l) →
              NoDup (conv_id <$> filter (λ c, conv_id c ≠ conversationId) l)) as Hfilter.
    { induction l as [|c l IH]; [done|]. rewrite fmap_cons, NoDup_cons. intros [Hc Hl].
      rewrite filter_cons. case_decide; [|by apply IH].
      rewrite fmap_cons. apply NoDup_cons. split; [|by apply IH].
      intros [c' [Heq [_ Hin]%list_elem_of_filter]]%list_elem_of_fmap.
      apply Hc. rewrite Heq. by apply list_elem_of_fmap_2. }
    destruct settled; simpl.
    + case_match; simpl; (split; [by apply Hfilter|]); intros _;
        intros [c' [Heq [Hne _]%list_elem_of_filter]]%list_elem_of_fmap; done.
    + split; [done|]. by intros [=].
  - intros opened. simpl. case_bool_decide as Hin; [done|].
    split; [|set_solver]. rewrite fmap_cons. by apply NoDup_cons.
  - intros sel. by rewrite zeroUnread_ids.
  - by apply JsFacts.dedupe_by_NoDup_id.
Qed.

Lemma unreadTotal_cons c cs : unreadTotal (c :: cs) = unreadCount c + unreadTotal cs.
Proof.
  unfold unreadTotal. simpl.
  assert (∀ n l, foldl (λ n c, n + unreadCount c) n l
                 = n + foldl (λ n c, n + unreadCount c) 0 l) as H.
  { intros n l. revert n. induction l as [|d l IH]; intros n; simpl; [lia|].
    rewrite (IH (n + unreadCount d)), (IH (0 + unreadCount d)). lia. }
  rewrite H. lia.
Qed.

Lemma unreadTotal_zeroUnread_absent sel (cs : list ConversationSummary) :
  sel ∉ conv_id <$> cs → unreadTotal (zeroUnread sel <$> cs) = unreadTotal cs.
Proof.
  induction cs as [|c cs IH]; [done|]. rewrite fmap_cons. intros Hnot.
  rewrite !fmap_cons, !unreadTotal_cons, zeroUnread_other by set_solver.
  rewrite IH by set_solver. done.
Qed.

(** X5: Once the mark-read request has succeeded, the total shown on the chat
    button has gone down by exactly the unread count of the focused
    conversation. *)
Theorem unreadTotal_after_focus (s : Session) (c : ConversationSummary)
    (cs : list ConversationSummary) :
  conv_id c ≠ "" →
  NoDup (conv_id <$> cs) →
  c ∈ cs →
  unreadTotal (afterSettled (Some s) (Some (conv_id c)) Fulfilled cs)
  = unreadTotal cs - unreadCount c.
Proof.
  intros Hid. rewrite afterSettled_Fulfilled by done.
  induction cs as [|d cs IH]; intros Hnd Hin; [by apply elem_of_nil in Hin|].
  rewrite fmap_cons in Hnd. apply NoDup_cons in Hnd as [Hd Hnd].
  rewrite fmap_cons, !unreadTotal_cons.
  apply elem_of_cons in Hin as [->|Hin].
  - rewrite unreadTotal_zeroUnread_absent by done.
    rewrite zeroUnread_selected by done. lia.
  - rewrite zeroUnread_other.
    + rewrite IH by done. lia.
    + intros Heq. apply Hd. rewrite Heq. by apply list_elem_of_fmap_2.
Qed.

Lemma unreadTotal_after_focus_witness :
  unreadTotal (afterSettled (Some me) (Some (conv_id c1)) Fulfilled [c1; c2])
  = unreadTotal [c1; c2] - unreadCount c1.
Proof.
  apply (unreadTotal_after_focus me c1 [c1; c2]).
  - done.
  - apply (bool_decide_unpack _). by vm_compute.
  - set_solver.
Defined.

Lemma conversation_ids_stay_unique_witness :
  dedupedConversations [c1; c2] = [c1; c2].
Proof.
  apply (conversation_ids_stay_unique
           {| conversations := [c1; c2]; selectedId := None; messages := []; open := true |}).
  apply (bool_decide_unpack _). by vm_compute.
Defined.

(** X6: The status under a message: nothing for somebody else's message; for
    one's own, "Read" exactly when every other participant of the
    conversation is among its readers, and "Delivered" otherwise.  In a
    conversation with no other participant one's own message reads "Read"
    as soon as it is shown. *)
Theorem messageStatus_spec (session : Session) (selected : ConversationSummary)
    (m : Message) :
  (messageStatus session selected m = NoStatus
   ↔ p_username (sender m) ≠ s_username session)
  ∧ (messageStatus session selected m = Read
     ↔ p_username (sender m) = s_username session
       ∧ ∀ p, p ∈ participants selected → p_username p ≠ s_username session →
              p_username p ∈ readBy m)
  ∧ (p_username (sender m) = s_username session →
     (∀ p, p ∈ participants selected → p_username p = s_username session) →
     messageStatus session selected m = Read).
Proof.
  assert (forallb (λ u, bool_decide (u ∈ readBy m))
            (p_username <$> filter (λ p, p_username p ≠ s_username session)
                              (participants selected)) = true
          ↔ ∀ p, p ∈ participants selected → p_username p ≠ s_username session →
                 p_username p ∈ readBy m) as Hall.
  { rewrite <-Is_true_true, forallb_True, Forall_fmap, Forall_forall. split.
    - intros H p Hp Hne. specialize (H p). simpl in H.
      apply (bool_decide_unpack _), H, list_elem_of_filter. done.
    - intros H p [Hne Hp]%list_elem_of_filter. simpl.
      apply bool_decide_pack. by apply H. }
  unfold messageStatus. cbv zeta.
  destruct (decide (p_username (sender m) = s_username session)) as [Hmine|Hmine].
  - rewrite bool_decide_eq_true_2 by done.
    destruct (forallb _ _) eqn:E; split_and!.
    + split; [done|]. by intros ?.
    + split; [|done]. intros _. split; [done|]. by apply Hall.
    + done.
    + split; [done|]. by intros ?.
    + split; [done|]. intros [_ H%Hall]. congruence.
    + intros _ Halone. assert (false = true) as Habs; [|done].
      apply Hall. intros p Hp Hne. by destruct (Hne (Halone p Hp)).
  - rewrite bool_decide_eq_false_2 by done. split_and!.
    + done.
    + split; [done|]. by intros [? _].
    + done.
Qed.

(** X7: The people offered for a new chat: never the user, each username once,
    online people first and then the most recently seen; everybody else
    who has a presence entry is offered. *)
Theorem participantOptions_spec (s : Session) (presenceEntries : list Roster.UserInfo) :
  NoDup (Roster.username <$> participantOptions (Some s) presenceEntries)
  ∧ (s_username s ∉ Roster.username <$> participantOptions (Some s) presenceEntries)
  ∧ (∀ u, u ∈ Roster.username <$> participantOptions (Some s) presenceEntries
          ↔ u ∈ Roster.username <$> presenceEntries ∧ u ≠ s_username s)
  ∧ StronglySorted Roster.roster_before (participantOptions (Some s) presenceEntries)
  ∧ participantOptions None presenceEntries = [].
Proof.
  unfold participantOptions.
  assert (∀ u, u ∈ Roster.username <$>
                 Js.sort Roster.compareRoster
                   (Js.dedupe_by Roster.username
                      (filter (λ entry, Roster.username entry ≠ s_username s)
                              presenceEntries))
               ↔ u ∈ Roster.username <$> presenceEntries ∧ u ≠ s_username s) as Hmem.
  { intros u. rewrite JsFacts.sort_Permutation, JsFacts.dedupe_by_keys.
    rewrite !list_elem_of_fmap. split.
    - intros [e [-> [Hne He]%list_elem_of_filter]]. split; [by exists e|done].
    - intros [[e [-> He]] Hne]. exists e. split; [done|]. by apply list_elem_of_filter. }
  split_and!.
  - rewrite JsFacts.sort_Permutation. apply JsFacts.dedupe_by_NoDup.
  - intros [_ Hne]%Hmem. done.
  - exact Hmem.
  - apply RosterFacts.sortRoster_StronglySorted.
  - done.
Qed.


(** X9: The message the server returns for a send is added to the list unless
    the list already has its id, in which case it takes that entry's
    place: a poll that delivered it first does not make it appear twice. *)
Theorem addSent_no_duplicate (prev : list Message) (sent : Message) :
  NoDup (id <$> prev) →
  NoDup (id <$> addSent prev sent)
  ∧ sent ∈ addSent prev sent
  ∧ length (addSent prev sent)
    = (if decide (id sent ∈ id <$> prev) then length prev else S (length prev))
  ∧ (id sent ∉ id <$> prev → addSent prev sent = prev ++ [sent]).
Proof.
  intros Hnd. rewrite addSent_spec.
  assert (sent ∈ Js.dedupe_by id (prev ++ [sent])) as Hsent.
  { apply JsFacts.dedupe_by_last. rewrite filter_app, filter_cons_True, filter_nil by done.
    by rewrite last_snoc. }
  assert (id sent ∉ id <$> prev → Js.dedupe_by id (prev ++ [sent]) = prev ++ [sent]) as Hfresh.
  { intros Hnot. apply JsFacts.dedupe_by_NoDup_id. rewrite fmap_app. simpl.
    apply NoDup_app. split_and!; [done|set_solver|apply NoDup_singleton]. }
  split_and!.
  - apply JsFacts.dedupe_by_NoDup.
  - done.
  - destruct (decide (id sent ∈ id <$> prev)) as [Hin|Hnot].
    + rewrite <-(length_fmap id (Js.dedupe_by id (prev ++ [sent]))), <-(length_fmap id prev).
      apply Permutation_length, NoDup_Permutation;
        [apply JsFacts.dedupe_by_NoDup|done|].
      intros i. rewrite JsFacts.dedupe_by_keys, fmap_app. set_solver.
    + rewrite Hfresh by done. rewrite length_app. simpl. lia.
  - done.
Qed.

Lemma addSent_no_duplicate_witness :
  NoDup (id <$> addSent [hello] hello)
  ∧ hello ∈ addSent [hello] hello
  ∧ length (addSent [hello] hello)
    = (if decide (id hello ∈ id <$> [hello]) then length [hello] else S (length [hello]))
  ∧ (id hello ∉ id <$> [hello] → addSent [hello] hello = [hello] ++ [hello]).
Proof.
  apply (addSent_no_duplicate [hello] hello).
  apply (bool_decide_unpack _). by vm_compute.
Defined.

(** X10: Clicking a name in the composer adds it to the selection when it is
    not there and removes it when it is; no name is ever selected twice,
    no other name is touched, and two clicks on a name restore the
    selection. *)
Theorem toggleParticipant_spec (username : string) (prev : list string) :
  NoDup prev →
  NoDup (toggleParticipant username prev)
  ∧ (username ∈ toggleParticipant username prev ↔ username ∉ prev)
  ∧ (∀ other, other ≠ username →
        (other ∈ toggleParticipant username prev ↔ other ∈ prev))
  ∧ (username ∉ prev →
        toggleParticipant username (toggleParticipant username prev) = prev).
Proof.
  intros Hnd. unfold toggleParticipant at 1 2 3.
  destruct (decide (username ∈ prev)) as [Hin|Hnot].
  - rewrite bool_decide_eq_true_2 by done. split_and!.
    + by apply NoDup_filter.
    + rewrite list_elem_of_filter. naive_solver.
    + intros other Hne. rewrite list_elem_of_filter. naive_solver.
    + done.
  - rewrite bool_decide_eq_false_2 by done. split_and!.
    + apply NoDup_app. split_and!; [done|set_solver|apply NoDup_singleton].
    + set_solver.
    + set_solver.
    + intros _. unfold toggleParticipant.
      rewrite (bool_decide_eq_false_2 (username ∈ prev)) by done.
      rewrite bool_decide_eq_true_2 by set_solver.
      rewrite filter_app, filter_cons_False, filter_nil, app_nil_r by (by intros ?).
      apply JsFacts.filter_all, Forall_forall. set_solver.
Qed.

Lemma toggleParticipant_spec_witness :
  toggleParticipant "ann" (toggleParticipant "ann" ["ben"]) = ["ben"].
Proof.
  apply (toggleParticipant_spec "ann" ["ben"]).
  - apply (bool_decide_unpack _). by vm_compute.
  - set_solver.
Defined.

End ChatFacts.

(** ** The unread count of presence alerts (C8) *)

Module NotificationsFacts.

Import Notifications.
Import Api.

Section Counting.
Implicit Types (events : list PresenceEvent) (readMap : ReadMap).

Lemma unreadPresence_filter events readMap :
  unreadPresence events readMap
  = length (filter (λ e, isRead readMap e = false) events).
Proof.
  unfold unreadPresence.
  assert (∀ n, foldl (λ acc e, if isRead readMap e then acc else (acc + 1)%nat) n events
               = (n + length (filter (λ e, isRead readMap e = false) events))%nat) as H.
  { induction events as [|e events IH]; intros n; simpl; [lia|].
    rewrite IH, filter_cons. destruct (isRead readMap e); case_decide; simpl; done || lia. }
  apply H.
Qed.

(** The own properties of the ledger [markAllRead] builds: [true] under
    the id of every event of the page, except under [__proto__]. *)
Lemma markAllRead_lookup events k :
  markAllRead events !! k
  = if decide (k ∈ id <$> events ∧ k ≠ "__proto__") then Some true else None.
Proof.
  unfold markAllRead.
  assert (∀ m : ReadMap,
            foldl (λ updated e, Js.assign (id e) true updated) m events !! k
            = if decide (k ∈ id <$> events ∧ k ≠ "__proto__") then Some true else m !! k)
    as H.
  { induction events as [|e events IH]; intros m.
    - cbn [foldl]. rewrite decide_False; [done|]. intros [Hin _]. by apply elem_of_nil in Hin.
    - cbn [foldl]. rewrite IH, fmap_cons.
      destruct (decide (k ∈ id <$> events ∧ k ≠ "__proto__")) as [[Hin Hk]|Hnot].
      + rewrite decide_True; [done|]. split; [set_solver|done].
      + unfold Js.assign. destruct (decide (k = id e)) as [->|Hne].
        * destruct (decide (id e = "__proto__")) as [Hp|Hp].
          -- rewrite bool_decide_eq_true_2 by done.
             rewrite decide_False; [done|]. by intros [_ ?].
          -- rewrite bool_decide_eq_false_2 by done.
             rewrite decide_True; [apply lookup_insert_eq|]. split; [set_solver|done].
        * rewrite decide_False.
          -- case_bool_decide; [done|]. by apply lookup_insert_ne.
          -- intros [Hin Hk]. apply Hnot. split; [set_solver|done]. }
  rewrite H. by rewrite lookup_empty.
Qed.

(** After [markAllRead], an event reads as read when the page held its id,
    or when its id names an inherited property. *)
Lemma isRead_markAllRead page (e : PresenceEvent) :
  isRead (markAllRead page) e = true ↔ id e ∈ id <$> page ∨ Js.inherited (id e) = true.
Proof.
  unfold isRead, Js.truthy_at. rewrite markAllRead_lookup.
  destruct (decide (id e ∈ id <$> page ∧ id e ≠ "__proto__")) as [[Hin Hk]|Hnot].
  - split; [by left|done].
  - split; [by right|]. intros [Hin|Hinh]; [|done].
    destruct (decide (id e = "__proto__")) as [->|Hk]; [done|].
    destruct Hnot. done.
Qed.

(** With no own property in the ledger, the events counted are those whose
    id names no inherited property. *)
Lemma unread_empty_ledger events :
  unreadPresence events ∅
  = length (filter (λ e, Js.inherited (id e) = false) events).
Proof.
  rewrite unreadPresence_filter. reflexivity.
Qed.

Lemma unread_after_markAllRead events page :
  unreadPresence events (markAllRead page)
  = length (filter (λ e, (id e ∉ id <$> page) ∧ Js.inherited (id e) = false) events).
Proof.
  rewrite unreadPresence_filter. f_equal.
  apply JsFacts.filter_ext_elem_of. intros e _.
  pose proof (isRead_markAllRead page e) as Hread.
  destruct (isRead (markAllRead page) e), (Js.inherited (id e)); naive_solver.
Qed.

(** The unread count splits into the event looked at and the rest (ids
    being unique). *)
Lemma unread_split events readMap (e : PresenceEvent) :
  NoDup (id <$> events) → e ∈ events →
  unreadPresence events readMap
  = ((if isRead readMap e then 0 else 1)
     + length (filter (λ e', isRead readMap e' = false ∧ id e' ≠ id e) events))%nat.
Proof.
  intros Hnd He. rewrite unreadPresence_filter.
  induction events as [|x events IH]; [by apply elem_of_nil in He|].
  rewrite fmap_cons in Hnd. apply NoDup_cons in Hnd as [Hx Hnd].
  rewrite !filter_cons. apply elem_of_cons in He as [->|He].
  - assert (filter (λ e', isRead readMap e' = false) events
            = filter (λ e', isRead readMap e' = false ∧ id e' ≠ id x) events) as ->.
    { apply JsFacts.filter_ext_elem_of. intros y Hy. split; [|naive_solver].
      intros ?. split; [done|]. intros Heq. apply Hx. rewrite <-Heq.
      by apply list_elem_of_fmap_2. }
    rewrite (decide_False (P := _ ∧ _)) by naive_solver.
    destruct (isRead readMap x); case_decide; simpl; done.
  - assert (id x ≠ id e) as Hne.
    { intros Heq. apply Hx. rewrite Heq. by apply list_elem_of_fmap_2. }
    destruct (decide (isRead readMap x = false)) as [Hr|Hr].
    + rewrite (decide_True (P := _ ∧ _)) by done. simpl. rewrite IH by done. lia.
    + rewrite (decide_False (P := _ ∧ _)) by naive_solver. by apply IH.
Qed.

(** Marking one event unread in a ledger in which it reads as read raises
    the count by one. *)
Lemma unread_after_toggle_back events readMap (e : PresenceEvent) :
  NoDup (id <$> events) → e ∈ events →
  isRead readMap e = true →
  unreadPresence events (toggleRead (id e) false readMap)
  = S (unreadPresence events readMap).
Proof.
  intros Hnd He Hread.
  rewrite (unread_split events (toggleRead (id e) false readMap) e),
          (unread_split events readMap e) by done.
  assert (isRead (toggleRead (id e) false readMap) e = false) as ->.
  { unfold isRead, Js.truthy_at, toggleRead. by rewrite lookup_insert_eq. }
  rewrite Hread. cbn [Nat.add]. f_equal. f_equal.
  apply JsFacts.filter_ext_elem_of. intros e' _.
  assert (id e' ≠ id e → isRead (toggleRead (id e) false readMap) e' = isRead readMap e')
    as Hother.
  { intros Hne. unfold isRead, Js.truthy_at, toggleRead. by rewrite lookup_insert_ne. }
  split; intros [H1 H2]; (split; [|done]).
  - by rewrite <-Hother.
  - by rewrite Hother.
Qed.
End Counting.

Lemma compareNewestFirst_consistent : Js.consistent compareNewestFirst.
Proof. split; unfold compareNewestFirst; intros; lia. Qed.

Lemma filter_not_in_prefix (l1 l2 : list PresenceEvent) :
  NoDup (id <$> (l1 ++ l2)) →
  filter (λ e, id e ∉ id <$> l1) (l1 ++ l2) = l2.
Proof.
  rewrite fmap_app. intros (_ & Hdisj & _)%NoDup_app.
  rewrite filter_app, JsFacts.filter_none, JsFacts.filter_all; [done| |].
  - apply Forall_forall. intros e He Hin. apply (Hdisj (id e)); [done|].
    by apply list_elem_of_fmap_2.
  - apply Forall_forall. intros e He Hnot. apply Hnot. by apply list_elem_of_fmap_2.
Qed.

(** What the header reads is what the page stored for the same user. *)
Lemma header_reads_page_ledger (s : Session) (feed : list PresenceEvent)
    (updated : ReadMap) (storage : LocalStorage) :
  s_role s = admin →
  headerUnreadPresence (Some s) (Some feed) (persist (Some s) false updated storage)
  = unreadPresence feed updated.
Proof.
  intros Hrole. unfold headerUnreadPresence, storedReadMap, persist.
  by rewrite Hrole, lookup_insert_eq.
Qed.

(** The events of a feed beyond the twenty newest (ids being unique, none
    of them the name of an inherited property). *)
Lemma unread_beyond_page (feed : list PresenceEvent) :
  NoDup (id <$> feed) →
  Forall (λ e, Js.inherited (id e) = false) feed →
  unreadPresence feed (markAllRead (loadEvents feed)) = (length feed - 20)%nat.
Proof.
  intros Hnd Hplain. rewrite unread_after_markAllRead.
  assert (filter (λ e, (id e ∉ id <$> loadEvents feed) ∧ Js.inherited (id e) = false) feed
          = filter (λ e, id e ∉ id <$> loadEvents feed) feed) as ->.
  { apply JsFacts.filter_ext_elem_of. intros e He.
    rewrite Forall_forall in Hplain. specialize (Hplain e He). naive_solver. }
  unfold loadEvents. set (sorted := Js.sort compareNewestFirst feed).
  assert (feed ≡ₚ take 20 sorted ++ drop 20 sorted) as Hperm.
  { rewrite take_drop. unfold sorted. by rewrite JsFacts.sort_Permutation. }
  rewrite Hperm at 1.
  rewrite filter_not_in_prefix by (by rewrite take_drop; unfold sorted;
                                     rewrite JsFacts.sort_Permutation).
  rewrite length_drop. unfold sorted. by rewrite JsFacts.sort_length.
Qed.

(** C8, as stated, fails.  The page marks the events it holds, the twenty
    newest, and the header counts over the whole feed: for the feed of
    twenty-one events the count after [markAllRead] is 1, not 0, and after
    one event is marked unread again it is 2, not 1.  And with an empty
    ledger an event whose id is "constructor" is not counted: the count
    for that one event is 0, not 1. *)
Lemma unread_count_off_beyond_twenty_events :
  length feed21 = 21%nat
  ∧ headerUnreadPresence (Some boss) (Some feed21)
      (persist (Some boss) false (markAllRead (loadEvents feed21)) ∅) = 1%nat
  ∧ headerUnreadPresence (Some boss) (Some feed21)
      (persist (Some boss) false
         (toggleRead "u" false (markAllRead (loadEvents feed21)))
         (persist (Some boss) false (markAllRead (loadEvents feed21)) ∅)) = 2%nat
  ∧ length [e3] = 1%nat
  ∧ headerUnreadPresence (Some boss) (Some [e3]) ∅ = 0%nat.
Proof. by vm_compute. Qed.

(** C8, amended: the count is the one the header shows to the signed-in
    admin, over the fetched feed and the ledger stored for that admin; the
    event ids of the feed are unique and none of them is the name of a
    property that plain objects inherit.  With no ledger stored, or an
    empty one, the count is the number of events.  After [markAllRead] on
    the page, which holds the twenty newest events, the count is the number
    of events beyond those twenty: 0 for a feed of at most twenty events.
    Marking one event of the page unread again raises that count by
    exactly one: to 1 for a feed of at most twenty events.  An empty feed
    counts 0, and so do a failed fetch and a session that is not an
    admin's. *)
Theorem header_unread_count (s : Session) (feed : list PresenceEvent)
    (storage : LocalStorage) :
  s_role s = admin →
  NoDup (id <$> feed) →
  Forall (λ e, Js.inherited (id e) = false) feed →
  (storage !! storageKey (s_username s) = None
   ∨ storage !! storageKey (s_username s) = Some ∅ →
   headerUnreadPresence (Some s) (Some feed) storage = length feed)
  ∧ headerUnreadPresence (Some s) (Some feed)
      (persist (Some s) false (markAllRead (loadEvents feed)) storage)
    = (length feed - 20)%nat
  ∧ (∀ e, e ∈ loadEvents feed →
       headerUnreadPresence (Some s) (Some feed)
         (persist (Some s) false
            (toggleRead (id e) false (markAllRead (loadEvents feed)))
            (persist (Some s) false (markAllRead (loadEvents feed)) storage))
       = S (length feed - 20))
  ∧ ((length feed ≤ 20)%nat →
       headerUnreadPresence (Some s) (Some feed)
         (persist (Some s) false (markAllRead (loadEvents feed)) storage) = 0%nat
       ∧ ∀ e, e ∈ feed →
           headerUnreadPresence (Some s) (Some feed)
             (persist (Some s) false
                (toggleRead (id e) false (markAllRead (loadEvents feed)))
                (persist (Some s) false (markAllRead (loadEvents feed)) storage))
           = 1%nat)
  ∧ headerUnreadPresence (Some s) (Some []) storage = 0%nat
  ∧ headerUnreadPresence (Some s) None storage = 0%nat
  ∧ (∀ session fetched,
       (∀ s', session = Some s' → s_role s' ≠ admin) →
       headerUnreadPresence session fetched storage = 0%nat).
Proof.
  intros Hrole Hnd Hplain.
  assert (∀ e, e ∈ loadEvents feed → e ∈ feed) as Hpage.
  { intros e He. unfold loadEvents in He. apply subseteq_take in He.
    by rewrite JsFacts.sort_Permutation in He. }
  assert (∀ e, e ∈ loadEvents feed →
            headerUnreadPresence (Some s) (Some feed)
              (persist (Some s) false
                 (toggleRead (id e) false (markAllRead (loadEvents feed)))
                 (persist (Some s) false (markAllRead (loadEvents feed)) storage))
            = S (length feed - 20)) as Htoggle.
  { intros e He. rewrite header_reads_page_ledger by done.
    rewrite unread_after_toggle_back; [by rewrite unread_beyond_page|done|by apply Hpage|].
    apply isRead_markAllRead. left. by apply list_elem_of_fmap_2. }
  split_and!.
  - intros Hempty.
    assert (storedReadMap (s_username s) storage = ∅) as Hledger.
    { unfold storedReadMap. by destruct Hempty as [-> | ->]. }
    unfold headerUnreadPresence. rewrite Hrole, Hledger, unread_empty_ledger.
    f_equal. by apply JsFacts.filter_all.
  - rewrite header_reads_page_ledger by done. by apply unread_beyond_page.
  - exact Htoggle.
  - intros Hlen. split.
    + rewrite header_reads_page_ledger, unread_beyond_page by done. lia.
    + intros e He. rewrite Htoggle; [lia|].
      unfold loadEvents. rewrite take_ge by (by rewrite JsFacts.sort_length).
      by rewrite JsFacts.sort_Permutation.
  - unfold headerUnreadPresence. by rewrite Hrole.
  - unfold headerUnreadPresence. by rewrite Hrole.
  - intros [s'|] fetched Hother; [|done].
    unfold headerUnreadPresence. specialize (Hother s' eq_refl).
    by destruct (s_role s').
Qed.

Lemma header_unread_count_witness :
  headerUnreadPresence (Some boss) (Some [e1; e2])
    (persist (Some boss) false (markAllRead (loadEvents [e1; e2])) ∅)
  = (length [e1; e2] - 20)%nat.
Proof.
  destruct (header_unread_count boss [e1; e2] ∅) as (_ & H & _).
  - reflexivity.
  - apply (bool_decide_unpack _). by vm_compute.
  - apply (bool_decide_unpack _). by vm_compute.
  - exact H.
Defined.

(** X11: The page shows at most twenty events, newest first; they are events of
    the feed, and every event left out is no newer than any event shown.
    A feed of at most twenty events is shown whole. *)
Theorem loadEvents_window (events : list PresenceEvent) :
  length (loadEvents events) = (length events `min` 20)%nat
  ∧ StronglySorted (λ a b, timestamp b ≤ timestamp a) (loadEvents events)
  ∧ (∃ rest, loadEvents events ++ rest ≡ₚ events
             ∧ ∀ shown left, shown ∈ loadEvents events → left ∈ rest →
                             timestamp left ≤ timestamp shown)
  ∧ ((length events ≤ 20)%nat → loadEvents events ≡ₚ events).
Proof.
  pose proof (JsFacts.sort_StronglySorted compareNewestFirst events
                compareNewestFirst_consistent) as Hsorted.
  apply (JsFacts.StronglySorted_impl _ (λ a b, timestamp b ≤ timestamp a)) in Hsorted;
    [|intros a b; unfold Js.precedes, compareNewestFirst; lia].
  rewrite <-(take_drop 20 (Js.sort compareNewestFirst events)) in Hsorted.
  unfold loadEvents. split_and!.
  - rewrite length_take, JsFacts.sort_length. lia.
  - by apply StronglySorted_app_1_l in Hsorted.
  - exists (drop 20 (Js.sort compareNewestFirst events)). split.
    + by rewrite take_drop, JsFacts.sort_Permutation.
    + intros shown left Hshown Hleft.
      by apply (StronglySorted_app_1_elem_of _ _ _ _ _ Hsorted).
  - intros Hlen. rewrite take_ge by (by rewrite JsFacts.sort_length).
    apply JsFacts.sort_Permutation.
Qed.

(** X12: After "mark all read" on the page, whatever events the page holds
    and whatever their ids, the header counts for the same admin exactly
    the events of the feed that the page did not hold and whose id names no
    inherited property; so it shows 0 exactly when every event of the feed
    is held by the page or has such an id. *)
Theorem header_counts_beyond_page (s : Session) (feed page : list PresenceEvent)
    (storage : LocalStorage) :
  s_role s = admin →
  headerUnreadPresence (Some s) (Some feed)
      (persist (Some s) false (markAllRead page) storage)
    = length (filter (λ e, (id e ∉ id <$> page) ∧ Js.inherited (id e) = false) feed)
  ∧ (headerUnreadPresence (Some s) (Some feed)
       (persist (Some s) false (markAllRead page) storage) = 0%nat
     ↔ ∀ e, e ∈ feed → id e ∈ id <$> page ∨ Js.inherited (id e) = true).
Proof.
  intros Hrole. rewrite header_reads_page_ledger, unread_after_markAllRead by done.
  split; [done|]. split.
  - intros Hnone%nil_length_inv e He.
    destruct (decide (id e ∈ id <$> page)) as [?|Hout]; [by left|].
    destruct (Js.inherited (id e)) eqn:Hinh; [by right|].
    assert (e ∈ filter (λ e, (id e ∉ id <$> page) ∧ Js.inherited (id e) = false) feed) as Hin
      by (by apply list_elem_of_filter).
    rewrite Hnone in Hin. by apply elem_of_nil in Hin.
  - intros Hall. rewrite JsFacts.filter_none; [done|]. apply Forall_forall.
    intros e He [Hout Hinh]. destruct (Hall e He) as [?|Hyes]; [done|congruence].
Qed.

Lemma header_counts_beyond_page_witness :
  headerUnreadPresence (Some boss) (Some [e1; e2; e3])
      (persist (Some boss) false (markAllRead [e1]) ∅)
    = length (filter (λ e, (id e ∉ id <$> [e1]) ∧ Js.inherited (id e) = false) [e1; e2; e3]).
Proof.
  destruct (header_counts_beyond_page boss [e1; e2; e3] [e1] ∅) as [H _].
  - reflexivity.
  - exact H.
Defined.

Lemma storageKey_inj (u1 u2 : string) : storageKey u1 = storageKey u2 → u1 = u2.
Proof. unfold storageKey. intros H. injection H as H. exact H. Qed.

(** X13: Each user has a ledger of their own in storage: what one user's page
    stores is what the header reads back for that user, and it changes
    neither the ledger nor the header count of anybody else.  Nothing is
    stored when [setItem] throws or nobody is signed in. *)
Theorem ledger_per_user (s : Session) (updated : ReadMap) (storage : LocalStorage) :
  storedReadMap (s_username s) (persist (Some s) false updated storage) = updated
  ∧ (∀ other : Session, s_username other ≠ s_username s →
       storedReadMap (s_username other) (persist (Some s) false updated storage)
         = storedReadMap (s_username other) storage
       ∧ ∀ fetched,
           headerUnreadPresence (Some other) fetched (persist (Some s) false updated storage)
           = headerUnreadPresence (Some other) fetched storage)
  ∧ persist (Some s) true updated storage = storage
  ∧ persist None false updated storage = storage.
Proof.
  split_and!.
  - unfold storedReadMap, persist. by rewrite lookup_insert_eq.
  - intros other Hne.
    assert (storedReadMap (s_username other) (persist (Some s) false updated storage)
            = storedReadMap (s_username other) storage) as Heq.
    { unfold storedReadMap, persist. rewrite lookup_insert_ne; [done|].
      intros Hkey%storageKey_inj. by apply Hne. }
    split; [done|]. intros fetched. unfold headerUnreadPresence. by rewrite Heq.
  - done.
  - done.
Qed.

(** X14: A click on an event's button flips that event between read and unread
    and no other event (ids being unique); the unread count goes up or
    down by exactly one, and a second click brings it back. *)
Theorem clickToggle_count (events : list PresenceEvent) (readMap : ReadMap)
    (e : PresenceEvent) :
  NoDup (id <$> events) → e ∈ events →
  isRead (clickToggle readMap e) e = negb (isRead readMap e)
  ∧ (∀ e', id e' ≠ id e → isRead (clickToggle readMap e) e' = isRead readMap e')
  ∧ (if isRead readMap e
     then unreadPresence events (clickToggle readMap e) = S (unreadPresence events readMap)
     else S (unreadPresence events (clickToggle readMap e)) = unreadPresence events readMap)
  ∧ unreadPresence events (clickToggle (clickToggle readMap e) e)
    = unreadPresence events readMap.
Proof.
  intros Hnd He.
  assert (∀ m, isRead (clickToggle m e) e = negb (isRead m e)) as Hflip.
  { intros m. unfold clickToggle, toggleRead. unfold isRead at 1. unfold Js.truthy_at.
    by rewrite lookup_insert_eq. }
  assert (∀ m e', id e' ≠ id e → isRead (clickToggle m e) e' = isRead m e') as Hother.
  { intros m e' Hne. unfold clickToggle, toggleRead, isRead, Js.truthy_at.
    by rewrite lookup_insert_ne. }
  assert (∀ m, filter (λ e', isRead (clickToggle m e) e' = false ∧ id e' ≠ id e) events
               = filter (λ e', isRead m e' = false ∧ id e' ≠ id e) events) as Hrest.
  { intros m. apply JsFacts.filter_ext_elem_of. intros e' _.
    split; intros [H1 H2]; (split; [|done]).
    - by rewrite <-(Hother m e').
    - by rewrite Hother. }
  split_and!.
  - apply Hflip.
  - apply Hother.
  - rewrite (unread_split events (clickToggle readMap e) e),
            (unread_split events readMap e) by done.
    rewrite Hflip, Hrest. by destruct (isRead readMap e).
  - rewrite (unread_split events (clickToggle (clickToggle readMap e) e) e),
            (unread_split events readMap e) by done.
    rewrite !Hflip, !Hrest. by destruct (isRead readMap e).
Qed.

Lemma clickToggle_count_witness :
  unreadPresence [e1; e2] (clickToggle (clickToggle ∅ e1) e1) = unreadPresence [e1; e2] ∅.
Proof.
  apply (clickToggle_count [e1; e2] ∅ e1).
  - apply (bool_decide_unpack _). by vm_compute.
  - set_solver.
Defined.

End NotificationsFacts.

(** ** The quiz session (C1 to C5, C10) *)

Module QuizFacts.

Import Quiz.

(** *** Starting a quiz *)

Lemma swap_Permutation {A} (l : list A) i j : swap l i j ≡ₚ l.
Proof.
  unfold swap. destruct (l !! i) as [x|] eqn:Hi; [|done].
  destruct (l !! j) as [y|] eqn:Hj; [|done].
  by apply Permutation_insert_swap.
Qed.

Lemma shuffleFrom_Permutation {A} draws i (l : list A) : shuffleFrom draws i l ≡ₚ l.
Proof.
  revert l. induction i as [|i IH]; intros l; simpl; [done|].
  by rewrite IH, swap_Permutation.
Qed.

(** Whatever the random draws, the shuffled list holds the flashcard's
    questions, each as often as the flashcard does. *)
Lemma shuffleArray_Permutation {A} draws (array : list A) :
  shuffleArray draws array ≡ₚ array.
Proof. apply shuffleFrom_Permutation. Qed.

Lemma startQuiz_questions difficulty customTime draws s :
  questions (startQuizWithDifficulty difficulty customTime draws s)
  ≡ₚ flashcardQuestions s.
Proof.
  unfold questions. simpl.
  destruct (shuffleArray draws (flashcardQuestions s)) as [|q qs] eqn:E.
  - done.
  - rewrite <-E. apply shuffleArray_Permutation.
Qed.

(** C10: a quiz started as [easy] with no custom time, or with one below
    30 seconds, is started all the same (nothing is rejected and nothing is
    raised to 30) with the budget of 10 seconds that [hard] has; a custom
    time of 30 or more is the budget as given. *)
Theorem easy_custom_time_below_30_falls_back (s : State) (customTime : option Z)
    (draws : nat → nat) :
  let s' := startQuizWithDifficulty easy customTime draws s in
  quizStarted s' = true
  ∧ quizDifficulty s' = Some easy
  ∧ quizTimer s' = selectedTimerPerQuestion s'
  ∧ selectedTimerPerQuestion s'
    = match customTime with
      | Some t => if decide (30 ≤ t) then t else timePerQuestion hard None
      | None => timePerQuestion hard None
      end
  ∧ timePerQuestion hard None = 10.
Proof.
  simpl. split_and!; try done.
  destruct customTime as [t|]; [|done]. simpl.
  destruct (decide (30 ≤ t)) as [Ht|Ht].
  - destruct (Z.eqb_spec t 0); [lia|]. destruct (Z.leb_spec 30 t); [done|lia].
  - destruct (Z.leb_spec 30 t); [lia|]. by rewrite andb_false_r.
Qed.

(** *** The score of a session *)

Lemma correct_count s :
  correct (calculateScore s) = length (filter (answeredCorrectly s) (questions s)).
Proof.
  unfold calculateScore. simpl.
  assert (∀ n l, foldl (λ n q, if decide (answeredCorrectly s q) then S n else n) n l
                 = (n + length (filter (answeredCorrectly s) l))%nat) as H.
  { intros n l. revert n. induction l as [|q l IH]; intros n; [simpl; lia|].
    cbn [foldl]. rewrite IH, filter_cons.
    destruct (decide (answeredCorrectly s q)); simpl; lia. }
  apply H.
Qed.

(** C5: the score counts, over all the questions of the session (the
    shuffled list), those whose selected answer is the correct answer; a
    question without a selected answer is not among them; the percentage is
    [Math.round(correct / total * 100)], which for 1 correct answer out of
    5 questions is 20. *)
Theorem calculateScore_spec (s : State) :
  correct (calculateScore s) = length (filter (answeredCorrectly s) (questions s))
  ∧ (∀ q, selectedAnswers s !! number q = None → ¬ answeredCorrectly s q)
  ∧ total (calculateScore s) = length (questions s)
  ∧ (shuffledQuestions s ≠ [] → questions s = shuffledQuestions s)
  ∧ percentage (calculateScore s)
    = Js.Math_round (Js.number_of_nat (correct (calculateScore s))
                     / Js.number_of_nat (total (calculateScore s)) * 100)%float
  ∧ (correct (calculateScore s) = 1%nat → total (calculateScore s) = 5%nat →
     percentage (calculateScore s) = Some 20).
Proof.
  split_and!.
  - apply correct_count.
  - unfold answeredCorrectly. intros q Hq. by rewrite Hq.
  - done.
  - unfold questions. by destruct (shuffledQuestions s).
  - done.
  - intros Hc Ht.
    change (percentage (calculateScore s))
      with (Js.Math_round (Js.number_of_nat (correct (calculateScore s))
                           / Js.number_of_nat (total (calculateScore s)) * 100)%float).
    rewrite Hc, Ht. by vm_compute.
Qed.

(** The percentage is computed on binary64 numbers: 23 correct answers out
    of 40 give 57.49999999999999 before rounding, hence 57. *)
Remark percentage_is_binary64 :
  Js.Math_round (Js.number_of_nat 23 / Js.number_of_nat 40 * 100)%float = Some 57
  ∧ Js.Math_round (Js.number_of_nat 1 / Js.number_of_nat 8 * 100)%float = Some 13.
Proof. by vm_compute. Qed.

Lemma phase_InProgress s : phase s = InProgress ↔ inProgress s = true.
Proof.
  unfold phase, inProgress.
  destruct (studyMode s), (quizAborted s), (quizFinished s), (quizStarted s);
    simpl; split; intros H; done.
Qed.

(** *** How the effects act *)

Lemma autoSaveEffect_st fid now prev cur : st (autoSaveEffect fid now prev cur) = st cur.
Proof. unfold autoSaveEffect. by case_match. Qed.

Lemma commit_not_inProgress fid now prev cur :
  inProgress (st cur) = false → commit fid now prev cur = cur.
Proof.
  intros H. unfold commit, connectionEffect, autoSaveEffect.
  by rewrite H, !andb_false_r.
Qed.

(** An event that ends the session has no effect beyond its handler's. *)
Lemma step_not_inProgress fid now e w :
  inProgress (st (handle fid now e w)) = false →
  step fid now e w = handle fid now e w.
Proof.
  intros H. unfold step. cbv zeta.
  rewrite (commit_not_inProgress fid now w) by done.
  by apply commit_not_inProgress.
Qed.

(** The connection effect never touches the slots. *)
Lemma connectionEffect_sessions now prev rendered w :
  quizSessions (connectionEffect now prev rendered w) = quizSessions w.
Proof. unfold connectionEffect. by repeat case_match. Qed.

Lemma commit_isOnline fid now prev cur : isOnline (commit fid now prev cur) = isOnline cur.
Proof. unfold commit, connectionEffect, autoSaveEffect. by repeat case_match. Qed.

Lemma commit_st fid now prev cur :
  st (commit fid now prev cur) = connectionUpdate now prev cur.
Proof.
  unfold commit, connectionEffect, connectionUpdate.
  repeat case_match; simpl; by rewrite ?autoSaveEffect_st.
Qed.

(** The render caused by the connection effect's own updates sets off no
    further state update: after [step] the component is at rest. *)
Lemma commit_commit_st fid now w w1 :
  st (commit fid now w1 (commit fid now w w1)) = st (commit fid now w w1).
Proof.
  rewrite (commit_st fid now w1). unfold connectionUpdate at 1.
  rewrite commit_isOnline.
  destruct (bool_decide (connectionDeps w1 ≠ connectionDeps (commit fid now w w1))) eqn:E;
    [|done].
  apply bool_decide_eq_true in E. rewrite andb_true_l.
  destruct (inProgress (st (commit fid now w w1))) eqn:Hin; [|done].
  revert E. unfold connectionDeps. rewrite commit_isOnline, commit_st.
  unfold connectionUpdate.
  destruct (bool_decide (connectionDeps w ≠ connectionDeps w1) && inProgress (st w1));
    [|by intros []].
  destruct (isOnline w1), (connectionLost (st w1)) eqn:Hc; simpl;
    rewrite ?Hc; simpl; try done; by intros [].
Qed.

Lemma step_st fid now e w :
  st (step fid now e w) = connectionUpdate now w (handle fid now e w).
Proof. unfold step. cbv zeta. by rewrite commit_commit_st, commit_st. Qed.

Lemma inProgress_flags s :
  inProgress s = true →
  studyMode s = quiz ∧ quizStarted s = true
  ∧ quizFinished s = false ∧ quizAborted s = false.
Proof.
  unfold inProgress. intros H.
  repeat (apply andb_true_iff in H as [H ?]).
  apply bool_decide_eq_true in H.
  split_and!; [done|done|by apply negb_true_iff|by apply negb_true_iff].
Qed.

Ltac flags H :=
  let H1 := fresh "Hmode" in let H2 := fresh "Hstarted" in
  let H3 := fresh "Hfinished" in let H4 := fresh "Haborted" in
  pose proof (inProgress_flags _ H) as (H1 & H2 & H3 & H4).

Lemma connectionUpdate_inProgress now prev rendered :
  inProgress (connectionUpdate now prev rendered) = inProgress (st rendered).
Proof. unfold connectionUpdate. by repeat case_match. Qed.

Lemma connectionUpdate_sessionData fid t now prev rendered :
  autoSaveDeps (connectionUpdate now prev rendered) = autoSaveDeps (st rendered) →
  sessionData fid t (connectionUpdate now prev rendered) = sessionData fid t (st rendered).
Proof.
  unfold connectionUpdate. repeat case_match; try done.
  unfold autoSaveDeps, sessionData. simpl. intros [= <-]. done.
Qed.

(** *** Leaving the quiz while connected (C1) *)

(** C1, as stated, fails: in a quiz that is in progress and connected, the
    tab becoming hidden leaves [quizAborted] unset and sets [quizFinished]:
    the session is finished, not aborted. *)
Lemma tab_hidden_online_is_not_aborted :
  phase (st started) = InProgress
  ∧ connectionLost (st started) = false
  ∧ quizAborted (st (step "card" 3000 VisibilityHidden started)) = false
  ∧ phase (st (step "card" 3000 VisibilityHidden started)) = Finished.
Proof. by vm_compute. Qed.

(** C1, amended: in a quiz that is in progress and connected, the tab
    becoming hidden ends the session at once as finished, and an attempt to
    navigate inside the application ends it at once as aborted; neither
    raises the cheating flag. *)
Theorem online_leave_ends_session (fid : string) (now : Z) (w : World) :
  phase (st w) = InProgress →
  connectionLost (st w) = false →
  phase (st (step fid now VisibilityHidden w)) = Finished
  ∧ phase (st (step fid now NavClick w)) = Aborted
  ∧ cheatingDetected (st (step fid now VisibilityHidden w)) = cheatingDetected (st w)
  ∧ cheatingDetected (st (step fid now NavClick w)) = cheatingDetected (st w).
Proof.
  intros Hin%phase_InProgress Hconn. flags Hin.
  assert (handle fid now VisibilityHidden w = withState (setQuizFinished true) w) as Hv.
  { change (handle fid now VisibilityHidden w) with (withState handleVisibilityChange w).
    unfold withState, handleVisibilityChange, offlineListenersAttached,
      navigationListenersAttached.
    by rewrite Hin, Hconn. }
  assert (handle fid now NavClick w = withState (setQuizAborted true) w) as Hn.
  { change (handle fid now NavClick w) with (withState handleNavClick w).
    unfold withState, handleNavClick, offlineListenersAttached,
      navigationListenersAttached.
    by rewrite Hin, Hconn. }
  rewrite !step_not_inProgress.
  - rewrite Hv, Hn. unfold phase. simpl. by rewrite Hmode, Haborted.
  - rewrite Hn. unfold inProgress. simpl. by rewrite andb_false_r.
  - rewrite Hv. unfold inProgress. simpl. by rewrite andb_false_r.
Qed.

Lemma online_leave_ends_session_witness :
  phase (st (step "card" 3000 VisibilityHidden started)) = Finished
  ∧ phase (st (step "card" 3000 NavClick started)) = Aborted
  ∧ cheatingDetected (st (step "card" 3000 VisibilityHidden started))
    = cheatingDetected (st started)
  ∧ cheatingDetected (st (step "card" 3000 NavClick started))
    = cheatingDetected (st started).
Proof.
  apply (online_leave_ends_session "card" 3000 started); by vm_compute.
Defined.

(** *** The offline monitor (C2) *)

(** With the flag down, a tick of the monitor raises it exactly when 240
    seconds or more have passed since the connection was lost. *)
Lemma offlineMonitorTick_warning now since s :
  offlineSince s = Some since →
  offlineTimeoutWarning s = false →
  offlineTimeoutWarning (offlineMonitorTick now s)
  = bool_decide (WARNING_THRESHOLD ≤ offlineSeconds now since).
Proof.
  intros Hs Hw. unfold offlineMonitorTick, offlineSeconds. rewrite Hs, Hw. cbv zeta.
  destruct (Z.leb_spec WARNING_THRESHOLD ((now - since) `div` 1000)) as [H|H];
    destruct (Z.leb_spec OFFLINE_TIMEOUT ((now - since) `div` 1000));
    simpl; rewrite ?Hw; symmetry;
    (by apply bool_decide_eq_true) || (apply bool_decide_eq_false; lia).
Qed.

(** A tick of the monitor at 300 seconds or more sets [quizFinished],
    whatever the question the session is at. *)
Lemma offlineMonitorTick_timeout now since s :
  offlineSince s = Some since →
  OFFLINE_TIMEOUT ≤ offlineSeconds now since →
  quizFinished (offlineMonitorTick now s) = true
  ∧ currentQuestionIndex (offlineMonitorTick now s) = currentQuestionIndex s.
Proof.
  intros Hs Ht. unfold offlineMonitorTick, offlineSeconds in *. rewrite Hs. cbv zeta.
  destruct (Z.leb_spec OFFLINE_TIMEOUT ((now - since) `div` 1000)); [|lia].
  by case_match.
Qed.

(** X23: While the connection is lost, the monitor's tick at 300 seconds or
    more after the loss finishes the quiz. *)
Lemma offline_timeout_finishes fid now since w :
  phase (st w) = InProgress →
  connectionLost (st w) = true →
  offlineSince (st w) = Some since → since ≠ 0 →
  OFFLINE_TIMEOUT ≤ offlineSeconds now since →
  phase (st (step fid now OfflineMonitorTick w)) = Finished.
Proof.
  intros Hin%phase_InProgress Hlost Hs Hne Ht. flags Hin.
  assert (offlineMonitorLive (st w) = true) as Hlive.
  { unfold offlineMonitorLive. rewrite Hlost, Hs, Hfinished, Haborted. simpl.
    destruct (Z.eqb_spec since 0); done. }
  assert (handle fid now OfflineMonitorTick w = withState (offlineMonitorTick now) w) as Hh.
  { unfold handle. by rewrite Hlive. }
  destruct (offlineMonitorTick_timeout now since (st w) Hs Ht) as [Hf _].
  assert (studyMode (offlineMonitorTick now (st w)) = quiz
          ∧ quizAborted (offlineMonitorTick now (st w)) = false) as [Hm Ha].
  { unfold offlineMonitorTick. rewrite Hs. cbv zeta. by repeat case_match. }
  rewrite step_not_inProgress; rewrite Hh.
  - unfold phase. simpl. by rewrite Hm, Ha, Hf.
  - unfold inProgress. simpl. by rewrite Hf, andb_false_r.
Qed.

(** No handler and no effect lowers the warning: once raised it stays
    raised, through reconnections and through later quizzes. *)
Lemma handle_warning_stays fid now e w :
  offlineTimeoutWarning (st w) = true →
  offlineTimeoutWarning (st (handle fid now e w)) = true.
Proof.
  intros Hw. destruct e; unfold handle, submitQuiz, quizTimerTick, moveToNextQuestion,
    submitQuiz, offlineMonitorTick, handleVisibilityChange, handleNavClick,
    handleChatClick, startQuizWithDifficulty; cbv zeta;
    repeat case_match; simpl; repeat case_match; simpl; done.
Qed.

Lemma step_warning_stays fid now e w :
  offlineTimeoutWarning (st w) = true →
  offlineTimeoutWarning (st (step fid now e w)) = true.
Proof.
  intros Hw. rewrite step_st. unfold connectionUpdate.
  pose proof (handle_warning_stays fid now e w Hw).
  by repeat case_match.
Qed.

Lemma run_warning_stays fid trace w :
  offlineTimeoutWarning (st w) = true →
  offlineTimeoutWarning (st (run fid trace w)) = true.
Proof.
  revert w. induction trace as [|[now e] trace IH]; intros w Hw; [done|].
  apply IH. by apply step_warning_stays.
Qed.

(** C2 holds in a session's first offline episode and fails in a later
    one.  The session below loses the connection at 10 s: the monitor's
    tick at 249.999 s (239 whole seconds offline) leaves the warning down
    and the tick at 250 s (240 seconds offline) raises it.  The connection
    comes back at 260 s and is lost again at 270 s.  No code lowers
    [offlineTimeoutWarning], so the second episode begins with the warning
    already up, 0 seconds after the connection was lost. *)
Theorem offline_warning_stale_in_second_episode :
  let first := run "card" [(10000, OnlineStatus false); (249999, OfflineMonitorTick)] started in
  let warned := step "card" 250000 OfflineMonitorTick first in
  let second := run "card" [(260000, OnlineStatus true); (270000, OnlineStatus false)] warned in
  offlineTimeoutWarning (st first) = false
  ∧ offlineTimeoutWarning (st warned) = true
  ∧ phase (st second) = InProgress
  ∧ connectionLost (st second) = true
  ∧ offlineSince (st second) = Some 270000
  ∧ offlineTimeoutWarning (st second) = true.
Proof. by vm_compute. Qed.

(** *** The persisted session at the end of a quiz (C4) *)

(** [submitQuiz], the manual path, empties the flashcard's slot. *)
Lemma submit_clears_session fid now w :
  mainScreen (st w) = true →
  phase (st w) = InProgress →
  phase (st (step fid now ClickSubmitOrBack w)) = Finished
  ∧ quizSessions (step fid now ClickSubmitOrBack w) !! fid = None.
Proof.
  intros Hmain Hin%phase_InProgress. flags Hin.
  assert (handle fid now ClickSubmitOrBack w = submitQuiz fid w) as Hh.
  { unfold handle. by rewrite Hmain, Hin. }
  rewrite step_not_inProgress; rewrite Hh.
  - split.
    + unfold phase. simpl. by rewrite Hmode, Haborted.
    + simpl. apply lookup_delete_eq.
  - unfold inProgress. simpl. by rewrite andb_false_r.
Qed.

(** The effects only ever write to the slot. *)
Lemma commit_keeps_session fid now prev cur :
  is_Some (quizSessions cur !! fid) →
  is_Some (quizSessions (commit fid now prev cur) !! fid).
Proof.
  intros Hs. unfold commit. rewrite connectionEffect_sessions.
  unfold autoSaveEffect. case_match; [|done].
  simpl. unfold setQuizSession. rewrite lookup_insert_eq. by eexists.
Qed.

(** The other ways out of a quiz leave the slot alone: after the monitor's
    tick, the tab becoming hidden, a navigation or chat click, or the
    reconnect timeout, a saved session is still saved. *)
Lemma other_endings_keep_session fid now e w :
  e = OfflineMonitorTick ∨ e = VisibilityHidden ∨ e = NavClick
  ∨ e = ChatWidgetClick ∨ e = ReconnectTimeout →
  is_Some (quizSessions w !! fid) →
  is_Some (quizSessions (step fid now e w) !! fid).
Proof.
  intros He Hs. unfold step. cbv zeta. do 2 apply commit_keeps_session.
  destruct He as [->|[->|[->|[->| ->]]]]; unfold handle; repeat case_match; done.
Qed.

(** C4 fails on every path to the end of a session other than
    [submitQuiz].  The session below was saved when it started.  Submitting
    it by hand empties its slot; but when it is finished by the offline
    timeout (connection lost at 10 s, monitor tick at 310 s), or by the tab
    becoming hidden, or aborted by a navigation click, the slot still holds
    the snapshot saved last. *)
Theorem session_kept_after_offline_timeout :
  let timedOut := run "card" [(10000, OnlineStatus false); (310000, OfflineMonitorTick)] started in
  let hidden := step "card" 3000 VisibilityHidden started in
  let left := step "card" 3000 NavClick started in
  let submitted := step "card" 3000 ClickSubmitOrBack started in
  (phase (st submitted) = Finished ∧ quizSessions submitted !! "card" = None)
  ∧ (phase (st timedOut) = Finished
     ∧ sd_timestamp <$> quizSessions timedOut !! "card" = Some 10000)
  ∧ (phase (st hidden) = Finished
     ∧ sd_timestamp <$> quizSessions hidden !! "card" = Some 2000)
  ∧ (phase (st left) = Aborted
     ∧ sd_timestamp <$> quizSessions left !! "card" = Some 2000).
Proof. by vm_compute. Qed.

(** *** What the auto-save effect persists (C3) *)

Lemma connectionUpdate_fields now prev rendered :
  let s' := connectionUpdate now prev rendered in
  currentQuestionIndex s' = currentQuestionIndex (st rendered)
  ∧ selectedAnswers s' = selectedAnswers (st rendered)
  ∧ quizTimer s' = quizTimer (st rendered).
Proof. unfold connectionUpdate. by repeat case_match. Qed.

Lemma screen_QuizScreen s : screen s = QuizScreen → inProgress s = true.
Proof.
  unfold screen, inProgress. repeat case_match; try done.
  intros _. destruct (quizFinished s), (quizAborted s); try done.
Qed.

(** Whatever the event: if it changes one of the values the auto-save
    effect depends on and leaves the quiz in progress, the flashcard's slot
    afterwards holds the snapshot of the state reached. *)
Lemma snapshot_written_on_change fid now e w :
  inProgress (st (step fid now e w)) = true →
  autoSaveDeps (st w) ≠ autoSaveDeps (st (step fid now e w)) →
  quizSessions (step fid now e w) !! fid
  = Some (sessionData fid now (st (step fid now e w))).
Proof.
  rewrite step_st. unfold step. cbv zeta.
  set (w1 := handle fid now e w). intros Hin Hdeps.
  pose proof (commit_st fid now w w1) as Hst2.
  set (w2 := commit fid now w w1) in *.
  unfold commit at 1. rewrite connectionEffect_sessions.
  unfold autoSaveEffect. rewrite Hst2, Hin, andb_true_r.
  destruct (decide (autoSaveDeps (st w1) = autoSaveDeps (connectionUpdate now w w1)))
    as [Heq|Hne].
  - rewrite bool_decide_eq_false_2 by (by intros ?).
    subst w2. unfold commit. rewrite connectionEffect_sessions.
    unfold autoSaveEffect.
    rewrite connectionUpdate_inProgress in Hin. rewrite Hin, andb_true_r.
    rewrite bool_decide_eq_true_2 by (by rewrite Heq).
    simpl. unfold setQuizSession. rewrite lookup_insert_eq.
    by rewrite connectionUpdate_sessionData.
  - rewrite bool_decide_eq_true_2 by done.
    simpl. unfold setQuizSession. by rewrite lookup_insert_eq.
Qed.

(** C3, as stated, fails: a tick of the quiz timer, with nothing else
    happening, overwrites the persisted snapshot (its timestamp moves from
    2000 to 3000), and the snapshot records the remaining time (10 before
    the tick, 9 after it). *)
Lemma timer_tick_alone_is_persisted :
  let ticked := step "card" 3000 QuizTimerTick started in
  currentQuestionIndex (st ticked) = currentQuestionIndex (st started)
  ∧ selectedAnswers (st ticked) = selectedAnswers (st started)
  ∧ sd_timestamp <$> quizSessions started !! "card" = Some 2000
  ∧ sd_quizTimer <$> quizSessions started !! "card" = Some 10
  ∧ sd_timestamp <$> quizSessions ticked !! "card" = Some 3000
  ∧ sd_quizTimer <$> quizSessions ticked !! "card" = Some 9.
Proof. by vm_compute. Qed.

(** C3, amended: while the quiz stays in progress, every event that
    changes the question index, the selected answers, the remaining time,
    the per-question budget, the cheating flag or [offlineSince] is followed
    by a write of the snapshot of the new state to the flashcard's slot.
    Selecting an answer and moving to the next question are such events,
    and so is a timer tick on its own; the remaining time is part of the
    snapshot. *)
Theorem snapshot_written_on_mutation_and_tick (fid : string) (now : Z) (w : World) :
  (∀ e, inProgress (st (step fid now e w)) = true →
        autoSaveDeps (st w) ≠ autoSaveDeps (st (step fid now e w)) →
        quizSessions (step fid now e w) !! fid
        = Some (sessionData fid now (st (step fid now e w))))
  ∧ (∀ q letter, screen (st w) = QuizScreen → showAnswers (st w) = false →
        currentQuestion (st w) = Some q →
        let w' := step fid now (ClickChoice letter) w in
        quizSessions w' !! fid = Some (sessionData fid now (st w'))
        ∧ sd_selectedAnswers (sessionData fid now (st w'))
          = <[number q := letter]> (selectedAnswers (st w)))
  ∧ (screen (st w) = QuizScreen → showAnswers (st w) = true →
        hasNextQuestion (st w) = true →
        let w' := step fid now ClickNext w in
        quizSessions w' !! fid = Some (sessionData fid now (st w'))
        ∧ sd_currentQuestionIndex (sessionData fid now (st w'))
          = S (currentQuestionIndex (st w)))
  ∧ (quizTimerLive (st w) = true → 1 < quizTimer (st w) →
        let w' := step fid now QuizTimerTick w in
        quizSessions w' !! fid = Some (sessionData fid now (st w'))
        ∧ sd_quizTimer (sessionData fid now (st w')) = quizTimer (st w) - 1).
Proof.
  split_and!.
  - intros e. apply snapshot_written_on_change.
  - intros q letter Hscreen Hshow Hq w'.
    pose proof (screen_QuizScreen _ Hscreen) as Hin.
    assert (handle fid now (ClickChoice letter) w
            = withState (setSelectedAnswers (<[number q := letter]> (selectedAnswers (st w)))) w)
      as Hh.
    { unfold handle. by rewrite Hscreen, Hshow, Hq. }
    destruct (connectionUpdate_fields now w (handle fid now (ClickChoice letter) w))
      as (Hi & Ha & Ht).
    assert (st w' = connectionUpdate now w (handle fid now (ClickChoice letter) w)) as Hst
      by apply step_st.
    split.
    + apply snapshot_written_on_change; fold w'; rewrite Hst.
      * rewrite connectionUpdate_inProgress, Hh. exact Hin.
      * unfold connectionUpdate. rewrite Hh.
        repeat case_match; unfold autoSaveDeps; simpl; intros [=]; lia.
    + change (sd_selectedAnswers (sessionData fid now (st w'))) with (selectedAnswers (st w')).
      by rewrite Hst, Ha, Hh.
  - intros Hscreen Hshow Hnext w'.
    pose proof (screen_QuizScreen _ Hscreen) as Hin.
    assert (handle fid now ClickNext w
            = withState (λ s0,
                let s1 := setShowAnswers false
                            (setCurrentQuestionIndex (currentQuestionIndex (st w) + 1)%nat s0) in
                if bool_decide (quizDifficulty (st w) ≠ Some practice)
                then setQuizTimer (selectedTimerPerQuestion (st w)) s1 else s1) w) as Hh.
    { unfold handle. by rewrite Hscreen, Hshow, Hnext. }
    destruct (connectionUpdate_fields now w (handle fid now ClickNext w)) as (Hi & Ha & Ht).
    assert (st w' = connectionUpdate now w (handle fid now ClickNext w)) as Hst
      by apply step_st.
    assert (currentQuestionIndex (st (handle fid now ClickNext w))
            = S (currentQuestionIndex (st w))) as Hidx.
    { rewrite Hh. simpl. case_match; simpl; lia. }
    split.
    + apply snapshot_written_on_change; fold w'; rewrite Hst.
      * rewrite connectionUpdate_inProgress, Hh. simpl.
        by case_match.
      * intros Heq. assert (currentQuestionIndex (st w)
          = currentQuestionIndex (connectionUpdate now w (handle fid now ClickNext w)))
          as Hc by (unfold autoSaveDeps in Heq; congruence).
        rewrite Hi, Hidx in Hc. lia.
    + change (sd_currentQuestionIndex (sessionData fid now (st w')))
        with (currentQuestionIndex (st w')).
      by rewrite Hst, Hi, Hidx.
  - intros Hlive Htimer w'.
    assert (inProgress (st w) = true) as Hin.
    { pose proof Hlive as Hl. unfold quizTimerLive in Hl.
      by apply andb_true_iff in Hl as [[[? _]%andb_true_iff _]%andb_true_iff _]. }
    assert (handle fid now QuizTimerTick w
            = withState (setQuizTimer (quizTimer (st w) - 1)) w) as Hh.
    { unfold handle, quizTimerTick. rewrite Hlive.
      destruct (Z.leb_spec (quizTimer (st w)) 1); [lia|done]. }
    destruct (connectionUpdate_fields now w (handle fid now QuizTimerTick w))
      as (Hi & Ha & Ht).
    assert (st w' = connectionUpdate now w (handle fid now QuizTimerTick w)) as Hst
      by apply step_st.
    split.
    + apply snapshot_written_on_change; fold w'; rewrite Hst.
      * rewrite connectionUpdate_inProgress, Hh. exact Hin.
      * intros Heq. assert (quizTimer (st w)
          = quizTimer (connectionUpdate now w (handle fid now QuizTimerTick w)))
          as Hc by (unfold autoSaveDeps in Heq; congruence).
        rewrite Ht, Hh in Hc. simpl in Hc. lia.
    + change (sd_quizTimer (sessionData fid now (st w'))) with (quizTimer (st w')).
      by rewrite Hst, Ht, Hh.
Qed.

(** *** The quiz timer *)

Lemma setQuizTimer_same s : setQuizTimer (quizTimer s) s = s.
Proof. by destruct s. Qed.

Lemma connectionUpdate_same_deps now prev rendered :
  connectionDeps prev = connectionDeps rendered →
  connectionUpdate now prev rendered = st rendered.
Proof.
  intros H. unfold connectionUpdate.
  rewrite bool_decide_eq_false_2; [done|]. intros Hne. by apply Hne.
Qed.

Lemma quizTimerLive_flags s :
  quizTimerLive s = true →
  inProgress s = true ∧ connectionLost s = false ∧ quizDifficulty s ≠ Some practice.
Proof.
  unfold quizTimerLive. intros H.
  apply andb_true_iff in H as [H Hpr]. apply andb_true_iff in H as [H Hconn].
  apply andb_true_iff in H as [H _].
  split_and!; [done|by apply negb_true_iff|by apply bool_decide_eq_true in Hpr].
Qed.

(** A tick with more than a second left takes one second off and nothing
    else. *)
Lemma tick_counts_down fid now w :
  quizTimerLive (st w) = true → 1 < quizTimer (st w) →
  st (step fid now QuizTimerTick w) = setQuizTimer (quizTimer (st w) - 1) (st w).
Proof.
  intros Hlive Ht. rewrite step_st.
  assert (handle fid now QuizTimerTick w
          = withState (setQuizTimer (quizTimer (st w) - 1)) w) as ->.
  { unfold handle, quizTimerTick. rewrite Hlive.
    destruct (Z.leb_spec (quizTimer (st w)) 1); [lia|done]. }
  by apply connectionUpdate_same_deps.
Qed.

Lemma countdown fid (times : list Z) w :
  quizTimerLive (st w) = true →
  Z.of_nat (length times) < quizTimer (st w) →
  st (run fid ((λ now, (now, QuizTimerTick)) <$> times) w)
  = setQuizTimer (quizTimer (st w) - Z.of_nat (length times)) (st w).
Proof.
  revert w. induction times as [|now times IH]; intros w Hlive Hlen.
  - cbn [length fmap list_fmap run foldl]. by rewrite Z.sub_0_r, setQuizTimer_same.
  - change (run fid ((λ now, (now, QuizTimerTick)) <$> now :: times) w)
      with (run fid ((λ now, (now, QuizTimerTick)) <$> times)
              (step fid now QuizTimerTick w)).
    cbn [length] in Hlen |- *.
    pose proof (tick_counts_down fid now w Hlive ltac:(lia)) as Hst.
    rewrite IH; rewrite Hst.
    + change (quizTimer (setQuizTimer (quizTimer (st w) - 1) (st w)))
        with (quizTimer (st w) - 1).
      change (setQuizTimer ?a (setQuizTimer ?b ?s)) with (setQuizTimer a s).
      f_equal. lia.
    + exact Hlive.
    + change (quizTimer (setQuizTimer (quizTimer (st w) - 1) (st w)))
        with (quizTimer (st w) - 1). lia.
Qed.

(** X15: A question's time runs out after as many ticks as the timer shows (no
    other event in between): the ticks before the last only count down;
    the last one moves to the next question with a full timer and the
    answer hidden again, leaving the answers given as they are, or, on the
    last question, submits the quiz, which asks the storage to delete the
    saved session. *)
Theorem question_times_out (fid : string) (times : list Z) (now : Z) (w : World) :
  quizTimerLive (st w) = true →
  quizTimer (st w) = Z.of_nat (length times) + 1 →
  (quizTimer (st (run fid ((λ now, (now, QuizTimerTick)) <$> times) w)) = 1
   ∧ currentQuestionIndex (st (run fid ((λ now, (now, QuizTimerTick)) <$> times) w))
     = currentQuestionIndex (st w))
  ∧ (if hasNextQuestion (st w)
     then
       let s' := st (step fid now QuizTimerTick
                       (run fid ((λ now, (now, QuizTimerTick)) <$> times) w)) in
       currentQuestionIndex s' = S (currentQuestionIndex (st w))
       ∧ quizTimer s' = selectedTimerPerQuestion (st w)
       ∧ showAnswers s' = false
       ∧ selectedAnswers s' = selectedAnswers (st w)
       ∧ quizTimerLive s' = true
     else
       let w' := step fid now QuizTimerTick
                   (run fid ((λ now, (now, QuizTimerTick)) <$> times) w) in
       phase (st w') = Finished
       ∧ currentQuestionIndex (st w') = currentQuestionIndex (st w)
       ∧ quizSessions w'
         = deleteQuizSession fid
             (quizSessions (run fid ((λ now, (now, QuizTimerTick)) <$> times) w))).
Proof.
  intros Hlive Ht.
  pose proof (countdown fid times w Hlive ltac:(lia)) as Hst.
  replace (quizTimer (st w) - Z.of_nat (length times)) with 1 in Hst by lia.
  set (wk := run fid ((λ now, (now, QuizTimerTick)) <$> times) w) in *.
  split; [by rewrite Hst|].
  assert (quizTimerLive (st wk) = true) as Hlivek by (by rewrite Hst).
  destruct (quizTimerLive_flags _ Hlive) as (Hin & Hconn & Hpr).
  flags Hin.
  destruct (hasNextQuestion (st w)) eqn:Hnext; cbv zeta.
  - assert (hasNextQuestion (st wk) = true) as Hnextk by (by rewrite Hst).
    rewrite step_st.
    assert (handle fid now QuizTimerTick wk
            = withState (λ s0, setQuizTimer (selectedTimerPerQuestion (st wk))
                (setQuizTimer (selectedTimerPerQuestion (st wk))
                  (setShowAnswers false
                    (setCurrentQuestionIndex (currentQuestionIndex (st wk) + 1)%nat s0))))
                wk) as ->.
    { unfold handle, quizTimerTick, moveToNextQuestion. cbv zeta.
      rewrite Hlivek, Hnextk, Hst.
      change (quizTimer (setQuizTimer 1 (st w))) with 1.
      change (1 <=? 1) with true. cbv iota.
      rewrite bool_decide_eq_true_2 by done. done. }
    rewrite connectionUpdate_same_deps by done.
    cbn [st withState]. rewrite Hst.
    split_and!; try done.
    cbn. lia.
  - assert (hasNextQuestion (st wk) = false) as Hnextk by (by rewrite Hst).
    assert (handle fid now QuizTimerTick wk
            = withState (setQuizTimer (selectedTimerPerQuestion (st wk)))
                (submitQuiz fid wk)) as Hh.
    { unfold handle, quizTimerTick, moveToNextQuestion. cbv zeta.
      rewrite Hlivek, Hnextk, Hst.
      change (quizTimer (setQuizTimer 1 (st w))) with 1.
      change (1 <=? 1) with true. cbv iota. done. }
    rewrite step_not_inProgress; rewrite Hh.
    + cbn [st withState submitQuiz withSessions quizSessions]. rewrite Hst.
      split_and!.
      * unfold phase. cbn. by rewrite Hmode, Haborted.
      * done.
      * done.
    + unfold inProgress. cbn. by rewrite andb_false_r.
Qed.

(** *** Losing and regaining the connection *)

Lemma phase_InProgress_flags s :
  phase s = InProgress → studyMode s = quiz ∧ quizAborted s = false.
Proof. intros Hin%phase_InProgress. flags Hin. done. Qed.

(** X16: When the connection goes while a quiz is in progress, the quiz is
    marked as having lost it at that moment and stays in progress; the
    auto-save runs once, with the snapshot of the state reached, which
    records the moment; the offline monitor starts and the quiz timer
    stands still until the connection is back. *)
Theorem going_offline_pauses_quiz (fid : string) (now : Z) (w : World) :
  phase (st w) = InProgress →
  isOnline w = true →
  connectionLost (st w) = false →
  let w' := step fid now (OnlineStatus false) w in
  st w' = setOfflineSince (Some now) (setConnectionLost true (st w))
  ∧ phase (st w') = InProgress
  ∧ (now ≠ 0 → offlineMonitorLive (st w') = true)
  ∧ (∀ now', st (step fid now' QuizTimerTick w') = st w')
  ∧ (offlineSince (st w) ≠ Some now →
     quizSessions w'
     = setQuizSession fid (sessionData fid now (st w')) (quizSessions w)
     ∧ sd_offlineSince (sessionData fid now (st w')) = Some now).
Proof.
  intros Hph Hon Hconn w'. pose proof Hph as Hin%phase_InProgress. flags Hin.
  assert (st w' = setOfflineSince (Some now) (setConnectionLost true (st w))) as Hst.
  { unfold w'. rewrite step_st.
    change (handle fid now (OnlineStatus false) w) with (withOnline false w).
    unfold connectionUpdate. cbn [st withOnline isOnline].
    rewrite Hin, Hconn, andb_true_r. rewrite bool_decide_eq_true_2; [done|].
    unfold connectionDeps. cbn [st withOnline isOnline]. rewrite Hon. by intros [=]. }
  assert (inProgress (st w') = true) as Hin' by (by rewrite Hst).
  split_and!.
  - done.
  - apply phase_InProgress. done.
  - intros Hnow. rewrite Hst. unfold offlineMonitorLive. cbn.
    rewrite Hfinished, Haborted. cbn. by destruct (Z.eqb_spec now 0).
  - intros now'. rewrite step_st.
    assert (handle fid now' QuizTimerTick w' = w') as ->.
    { unfold handle. cbv zeta. rewrite Hst. unfold quizTimerLive. cbn.
      by rewrite !andb_false_r. }
    by apply connectionUpdate_same_deps.
  - intros Hsince. split; [|by rewrite Hst].
    rewrite Hst. unfold w', step. cbv zeta.
    change (handle fid now (OnlineStatus false) w) with (withOnline false w).
    set (w1 := withOnline false w).
    assert (st (commit fid now w w1)
            = setOfflineSince (Some now) (setConnectionLost true (st w))) as Hst2.
    { rewrite <-Hst. unfold w'. by rewrite step_st, commit_st. }
    assert (quizSessions (commit fid now w w1) = quizSessions w) as Hs2.
    { unfold commit. rewrite connectionEffect_sessions. unfold autoSaveEffect.
      rewrite bool_decide_eq_false_2; [done|]. intros Hne. by apply Hne. }
    unfold commit at 1. rewrite connectionEffect_sessions. unfold autoSaveEffect.
    rewrite Hst2. rewrite bool_decide_eq_true_2.
    + rewrite Hst in Hin'. rewrite Hin'. cbn [andb withSessions quizSessions].
      by rewrite Hs2.
    + unfold w1, autoSaveDeps. cbn. intros [=]. congruence.
Qed.


Lemma commit_reconnectTimeouts fid now prev cur :
  reconnectTimeouts (commit fid now prev cur)
  = if bool_decide (connectionDeps prev ≠ connectionDeps cur) && inProgress (st cur)
       && isOnline cur && connectionLost (st cur) && cheatingDetected (st cur)
    then S (reconnectTimeouts cur) else reconnectTimeouts cur.
Proof.
  unfold commit, connectionEffect.
  destruct (bool_decide (connectionDeps prev ≠ connectionDeps cur)),
    (inProgress (st cur)) eqn:Hin, (isOnline cur), (connectionLost (st cur)),
    (cheatingDetected (st cur));
    cbn; unfold autoSaveEffect; rewrite ?Hin; by repeat case_match.
Qed.

(** X18: When the connection comes back the quiz goes on: the offline monitor
    stops, the moment the connection was lost stays recorded, and, if the
    cheating flag is up, a timeout is set that finishes the quiz when it
    fires. *)
Theorem reconnecting_resumes_or_ends (fid : string) (now : Z) (w : World) :
  phase (st w) = InProgress →
  isOnline w = false →
  connectionLost (st w) = true →
  let w' := step fid now (OnlineStatus true) w in
  st w' = setConnectionLost false (st w)
  ∧ phase (st w') = InProgress
  ∧ offlineMonitorLive (st w') = false
  ∧ reconnectTimeouts w'
    = (if cheatingDetected (st w) then S (reconnectTimeouts w) else reconnectTimeouts w)
  ∧ (cheatingDetected (st w) = true →
     ∀ now', phase (st (step fid now' ReconnectTimeout w')) = Finished)
  ∧ (cheatingDetected (st w) = false → reconnectTimeouts w = 0%nat →
     ∀ now', st (step fid now' ReconnectTimeout w') = st w').
Proof.
  intros Hph Hoff Hconn w'. pose proof Hph as Hin%phase_InProgress. flags Hin.
  set (w1 := withOnline true w).
  assert (connectionDeps w ≠ connectionDeps w1) as Hdeps.
  { unfold connectionDeps, w1. cbn [st withOnline isOnline]. rewrite Hoff. by intros [=]. }
  assert (st w' = setConnectionLost false (st w)) as Hst.
  { unfold w'. rewrite step_st.
    change (handle fid now (OnlineStatus true) w) with w1.
    unfold connectionUpdate. rewrite bool_decide_eq_true_2 by done.
    unfold w1. cbn [st withOnline isOnline]. by rewrite Hin, Hconn. }
  assert (phase (st w') = InProgress) as Hph'.
  { apply phase_InProgress. by rewrite Hst. }
  assert (reconnectTimeouts w'
          = if cheatingDetected (st w) then S (reconnectTimeouts w) else reconnectTimeouts w)
    as Htimeouts.
  { unfold w', step. cbv zeta. change (handle fid now (OnlineStatus true) w) with w1.
    rewrite commit_reconnectTimeouts, commit_st, commit_isOnline.
    assert (connectionLost (connectionUpdate now w w1) = false) as ->.
    { unfold connectionUpdate. rewrite bool_decide_eq_true_2 by done.
      unfold w1. cbn [st withOnline isOnline]. by rewrite Hin, Hconn. }
    rewrite andb_false_r. cbn [andb].
    rewrite commit_reconnectTimeouts, bool_decide_eq_true_2 by done.
    unfold w1. cbn [st withOnline isOnline reconnectTimeouts]. by rewrite Hin, Hconn. }
  split_and!.
  - done.
  - done.
  - rewrite Hst. unfold offlineMonitorLive. by cbn.
  - done.
  - intros Hcheat now'. rewrite Hcheat in Htimeouts.
    destruct (phase_InProgress_flags _ Hph') as [Hm Ha].
    assert (handle fid now' ReconnectTimeout w'
            = withState (setQuizFinished true) (withTimeouts (reconnectTimeouts w) w')) as Hh.
    { unfold handle. by rewrite Htimeouts. }
    rewrite step_not_inProgress; rewrite Hh.
    + unfold phase. cbn. by rewrite Hm, Ha.
    + unfold inProgress. cbn. by rewrite andb_false_r.
  - intros Hcheat Hnone now'. rewrite Hcheat, Hnone in Htimeouts.
    rewrite step_st.
    assert (handle fid now' ReconnectTimeout w' = w') as ->.
    { unfold handle. by rewrite Htimeouts. }
    by apply connectionUpdate_same_deps.
Qed.

Lemma handle_cheating_stays fid now e w :
  cheatingDetected (st w) = true →
  cheatingDetected (st (handle fid now e w)) = true.
Proof.
  intros Hw. destruct e; unfold handle, submitQuiz, quizTimerTick, moveToNextQuestion,
    submitQuiz, offlineMonitorTick, handleVisibilityChange, handleNavClick,
    handleChatClick, startQuizWithDifficulty; cbv zeta;
    repeat case_match; simpl; repeat case_match; simpl; done.
Qed.

Lemma step_cheating_stays fid now e w :
  cheatingDetected (st w) = true →
  cheatingDetected (st (step fid now e w)) = true.
Proof.
  intros Hw. rewrite step_st. unfold connectionUpdate.
  pose proof (handle_cheating_stays fid now e w Hw).
  by repeat case_match.
Qed.

(** X19: Nothing that happens to the mounted component lowers the cheating flag
    or the offline warning: once raised, each stays raised through every
    later event, a later quiz on the same flashcard included. *)
Theorem offline_flags_never_lowered (fid : string) (trace : list (Z * Event))
    (w : World) :
  (cheatingDetected (st w) = true → cheatingDetected (st (run fid trace w)) = true)
  ∧ (offlineTimeoutWarning (st w) = true →
     offlineTimeoutWarning (st (run fid trace w)) = true).
Proof.
  split; revert w; induction trace as [|[now e] trace IH]; intros w Hw; try done.
  - apply IH. by apply step_cheating_stays.
  - apply IH. by apply step_warning_stays.
Qed.

(** *** The time per question of an easy quiz *)

Lemma handle_easyModeTime fid now e w :
  30 ≤ easyModeTime (st w) → 30 ≤ easyModeTime (st (handle fid now e w)).
Proof.
  intros Hw. destruct e; unfold handle, submitQuiz, quizTimerTick, moveToNextQuestion,
    submitQuiz, offlineMonitorTick, handleVisibilityChange, handleNavClick,
    handleChatClick, startQuizWithDifficulty; cbv zeta;
    repeat case_match; simpl; repeat case_match; simpl; done || lia.
Qed.

Lemma step_easyModeTime fid now e w :
  30 ≤ easyModeTime (st w) → 30 ≤ easyModeTime (st (step fid now e w)).
Proof.
  intros Hw. rewrite step_st. unfold connectionUpdate.
  pose proof (handle_easyModeTime fid now e w Hw).
  by repeat case_match.
Qed.

Lemma run_easyModeTime fid trace w :
  30 ≤ easyModeTime (st w) → 30 ≤ easyModeTime (st (run fid trace w)).
Proof.
  revert w. induction trace as [|[now e] trace IH]; intros w Hw; [done|].
  apply IH. by apply step_easyModeTime.
Qed.

(** X20: Whatever has happened since the flashcard was loaded, the time chosen
    for an easy quiz is at least 30 seconds, and an easy quiz started from
    the mode selection gives each question exactly that time: through the
    component's controls the fallback to 10 seconds is never taken. *)
Theorem easy_time_is_at_least_30 (fid : string) (trace : list (Z * Event))
    (qs : list Question) (now : Z) (draws : nat → nat) :
  30 ≤ easyModeTime (st (run fid trace (mounted qs)))
  ∧ (screen (st (run fid trace (mounted qs))) = ModeSelectionScreen →
     selectedTimerPerQuestion
       (st (step fid now (ClickDifficulty easy draws) (run fid trace (mounted qs))))
     = easyModeTime (st (run fid trace (mounted qs)))).
Proof.
  assert (30 ≤ easyModeTime (st (run fid trace (mounted qs)))) as Hge.
  { apply run_easyModeTime. by cbn. }
  split; [done|]. intros Hscreen.
  set (w := run fid trace (mounted qs)) in *.
  rewrite step_st.
  assert (handle fid now (ClickDifficulty easy draws) w
          = withState (startQuizWithDifficulty easy (Some (easyModeTime (st w))) draws) w)
    as ->.
  { unfold handle. by rewrite Hscreen. }
  assert (selectedTimerPerQuestion
            (startQuizWithDifficulty easy (Some (easyModeTime (st w))) draws (st w))
          = easyModeTime (st w)) as Hsel.
  { cbn. destruct (Z.eqb_spec (easyModeTime (st w)) 0); [lia|].
    destruct (Z.leb_spec 30 (easyModeTime (st w))); [done|lia]. }
  unfold connectionUpdate. cbn [st withState]. by repeat case_match.
Qed.

(** *** The score and the order of the questions *)

Lemma calculateScore_Permutation s s' :
  questions s ≡ₚ questions s' →
  selectedAnswers s = selectedAnswers s' →
  calculateScore s = calculateScore s'.
Proof.
  intros Hperm Hans.
  assert (correct (calculateScore s) = correct (calculateScore s')) as Hc.
  { rewrite !correct_count, Hperm. f_equal.
    apply JsFacts.filter_ext_elem_of. intros q _. unfold answeredCorrectly.
    by rewrite Hans. }
  assert (total (calculateScore s) = total (calculateScore s')) as Ht.
  { cbn [total calculateScore]. by rewrite Hperm. }
  change (calculateScore s)
    with {| correct := correct (calculateScore s); total := total (calculateScore s);
            percentage :=
              Js.Math_round (Js.number_of_nat (correct (calculateScore s))
                             / Js.number_of_nat (total (calculateScore s)) * 100)%float |}.
  by rewrite Hc, Ht.
Qed.

(** X21: The score does not depend on how the questions were shuffled: with the
    same answers, two quizzes on a flashcard score the same whatever the
    random draws, over as many questions as the flashcard has, and never
    more correct answers than questions. *)
Theorem score_independent_of_shuffle (s : State) (difficulty : QuizDifficulty)
    (customTime : option Z) (draws1 draws2 : nat → nat) (answers : gmap Z string) :
  calculateScore (setSelectedAnswers answers
                    (startQuizWithDifficulty difficulty customTime draws1 s))
  = calculateScore (setSelectedAnswers answers
                      (startQuizWithDifficulty difficulty customTime draws2 s))
  ∧ total (calculateScore (setSelectedAnswers answers
                             (startQuizWithDifficulty difficulty customTime draws1 s)))
    = length (flashcardQuestions s)
  ∧ (correct (calculateScore (setSelectedAnswers answers
                                (startQuizWithDifficulty difficulty customTime draws1 s)))
     ≤ length (flashcardQuestions s))%nat.
Proof.
  assert (∀ draws, questions (setSelectedAnswers answers
                                (startQuizWithDifficulty difficulty customTime draws s))
                   ≡ₚ flashcardQuestions s) as Hq.
  { intros draws.
    change (questions (setSelectedAnswers answers
                         (startQuizWithDifficulty difficulty customTime draws s)))
      with (questions (startQuizWithDifficulty difficulty customTime draws s)).
    apply startQuiz_questions. }
  split_and!.
  - apply calculateScore_Permutation; [by rewrite !Hq|done].
  - cbn [total calculateScore]. by rewrite Hq.
  - rewrite correct_count, <-(Permutation_length (Hq draws1)). apply length_filter.
Qed.

(** *** Starting over from the sidebar *)

(** X22: The sidebar's Quiz button, pressed on any of the screens that show it
    (a quiz in progress included), leads back to the choice of difficulty
    with the time for an easy quiz at 30; it clears neither the answers
    selected so far nor the saved session, and a quiz started next begins
    at the first question with those answers still selected. *)
Theorem sidebar_quiz_keeps_answers (fid : string) (now now' : Z) (w : World)
    (difficulty : QuizDifficulty) (draws : nat → nat) :
  mainScreen (st w) = true →
  flashcardQuestions (st w) ≠ [] →
  let w' := step fid now ClickSidebarQuiz w in
  let w'' := step fid now' (ClickDifficulty difficulty draws) w' in
  phase (st w') = SelectingMode
  ∧ easyModeTime (st w') = 30
  ∧ selectedAnswers (st w') = selectedAnswers (st w)
  ∧ quizSessions w' = quizSessions w
  ∧ phase (st w'') = InProgress
  ∧ currentQuestionIndex (st w'') = 0%nat
  ∧ selectedAnswers (st w'') = selectedAnswers (st w).
Proof.
  intros Hmain Hqs w' w''.
  assert (loading (st w) = false) as Hload.
  { revert Hmain. unfold mainScreen, screen. by destruct (loading (st w)). }
  assert (handle fid now ClickSidebarQuiz w
          = withState (λ s,
              setQuizDifficulty None (setShuffledQuestions [] (setEasyModeTime 30
                (setQuizAborted false (setQuizFinished false (setQuizStarted false
                  (setCurrentQuestionIndex 0 (setShowAnswers false
                    (setStudyMode quiz s))))))))) w) as Hh.
  { unfold handle. by rewrite Hmain. }
  assert (step fid now ClickSidebarQuiz w = handle fid now ClickSidebarQuiz w) as Hstep.
  { apply step_not_inProgress. by rewrite Hh. }
  assert (screen (st w') = ModeSelectionScreen) as Hscreen.
  { unfold w'. rewrite Hstep, Hh. unfold screen, questions. cbn.
    rewrite Hload. by rewrite bool_decide_eq_false_2. }
  assert (st w'' = connectionUpdate now' w'
                     (withState (startQuizWithDifficulty difficulty
                                   match difficulty with
                                   | easy => Some (easyModeTime (st w'))
                                   | _ => None
                                   end draws) w')) as Hst''.
  { unfold w''. rewrite step_st. f_equal. unfold handle. by rewrite Hscreen. }
  split_and!.
  - unfold w'. by rewrite Hstep, Hh.
  - unfold w'. by rewrite Hstep, Hh.
  - unfold w'. by rewrite Hstep, Hh.
  - unfold w'. by rewrite Hstep, Hh.
  - apply phase_InProgress. rewrite Hst'', connectionUpdate_inProgress.
    unfold w'. by rewrite Hstep, Hh.
  - rewrite Hst''.
    destruct (connectionUpdate_fields now' w'
                (withState (startQuizWithDifficulty difficulty
                              match difficulty with
                              | easy => Some (easyModeTime (st w'))
                              | _ => None
                              end draws) w')) as (-> & _ & _).
    unfold w'. by rewrite Hstep, Hh.
  - rewrite Hst''.
    destruct (connectionUpdate_fields now' w'
                (withState (startQuizWithDifficulty difficulty
                              match difficulty with
                              | easy => Some (easyModeTime (st w'))
                              | _ => None
                              end draws) w')) as (_ & -> & _).
    unfold w'. by rewrite Hstep, Hh.
Qed.

(** *** The examples evaluated *)

Example scenario_score :
  number <$> questions (st scenario) = [2; 3; 4; 5; 1]
  ∧ selectedAnswers (st scenario) = {[ 2 := "B" ]}
  ∧ currentQuestionIndex (st scenario) = 2%nat
  ∧ phase (st scenario) = Finished
  ∧ calculateScore (st scenario) = {| correct := 1; total := 5; percentage := Some 20 |}.
Proof. by vm_compute. Qed.

Lemma calculateScore_spec_witness :
  percentage (calculateScore (st scenario)) = Some 20.
Proof. apply (calculateScore_spec (st scenario)); by vm_compute. Defined.

Lemma snapshot_written_witness :
  let w' := step "card" 3000 QuizTimerTick started in
  quizSessions w' !! "card" = Some (sessionData "card" 3000 (st w'))
  ∧ sd_quizTimer (sessionData "card" 3000 (st w')) = quizTimer (st started) - 1.
Proof.
  destruct (snapshot_written_on_mutation_and_tick "card" 3000 started) as (_ & _ & _ & H).
  apply H; by vm_compute.
Defined.

Lemma question_times_out_witness :
  quizTimer (st (run "card" ((λ now, (now, QuizTimerTick))
                               <$> [3000; 4000; 5000; 6000; 7000; 8000; 9000; 10000; 11000])
                   started)) = 1
  ∧ currentQuestionIndex
      (st (run "card" ((λ now, (now, QuizTimerTick))
                         <$> [3000; 4000; 5000; 6000; 7000; 8000; 9000; 10000; 11000])
             started))
    = currentQuestionIndex (st started).
Proof.
  destruct (question_times_out "card"
              [3000; 4000; 5000; 6000; 7000; 8000; 9000; 10000; 11000] 12000 started)
    as [H _]; [by vm_compute..|exact H].
Defined.

Lemma going_offline_pauses_quiz_witness :
  st (step "card" 3000 (OnlineStatus false) started)
  = setOfflineSince (Some 3000) (setConnectionLost true (st started)).
Proof.
  destruct (going_offline_pauses_quiz "card" 3000 started) as [H _];
    [by vm_compute..|exact H].
Defined.


Lemma reconnecting_resumes_or_ends_witness :
  st (step "card" 4000 (OnlineStatus true) offline) = setConnectionLost false (st offline).
Proof.
  destruct (reconnecting_resumes_or_ends "card" 4000 offline) as [H _];
    [by vm_compute..|exact H].
Defined.

Lemma sidebar_quiz_keeps_answers_witness :
  phase (st (step "card" 3000 ClickSidebarQuiz started)) = SelectingMode.
Proof.
  destruct (sidebar_quiz_keeps_answers "card" 3000 4000 started hard (λ _, 0%nat))
    as [H _]; [by vm_compute..|exact H].
Defined.

Lemma offline_timeout_finishes_witness :
  phase (st (step "card" 303000 OfflineMonitorTick offline)) = Finished.
Proof.
  apply (offline_timeout_finishes "card" 303000 3000 offline); by vm_compute.
Defined.

End QuizFacts.

(** ** The offline storage and the fetches that fall back to it *)

Module OfflineStorageFacts.

Import OfflineStorage.

Lemma dataKey_inj a b : dataKey a = dataKey b → a = b.
Proof.
  unfold dataKey, getKey, STORAGE_PREFIX, FLASHCARD_DATA_KEY. intros H.
  injection H as H. exact H.
Qed.

Lemma dataKey_not_list fid : dataKey fid ≠ getKey FLASHCARD_KEY.
Proof.
  unfold dataKey, getKey, STORAGE_PREFIX, FLASHCARD_DATA_KEY, FLASHCARD_KEY. intros H.
  injection H as H. discriminate H.
Qed.

Lemma dataKey_not_queue fid : dataKey fid ≠ getKey SYNC_QUEUE_KEY.
Proof.
  unfold dataKey, getKey, STORAGE_PREFIX, FLASHCARD_DATA_KEY, SYNC_QUEUE_KEY. intros H.
  injection H as H. discriminate H.
Qed.

Lemma append_cons c a b : String.append (String c a) b = String c (String.append a b).
Proof. done. Qed.

Lemma prefix_append a b : String.prefix a (String.append a b) = true.
Proof.
  induction a as [|c a IH].
  - by destruct b.
  - rewrite append_cons. cbn [String.prefix]. by destruct (Ascii.ascii_dec c c).
Qed.

Lemma includes_prefix a b : includes a (String.append a b) = true.
Proof.
  pose proof (prefix_append a b) as H.
  destruct (String.append a b); cbn [includes]; by rewrite H.
Qed.

(** A string that includes [a] still includes it with something put in
    front. *)
Lemma includes_append_r p a s : includes a s = true → includes a (String.append p s) = true.
Proof.
  intros H. induction p as [|c p IH]; [done|].
  rewrite append_cons. cbn [includes]. rewrite IH. apply orb_true_r.
Qed.

Lemma dataKey_isFlashcardDataKey fid : isFlashcardDataKey (dataKey fid) = true.
Proof.
  unfold isFlashcardDataKey, dataKey, getKey.
  rewrite includes_prefix, includes_append_r; [done|]. apply includes_prefix.
Qed.

(** X24: What is stored for a flashcard is what is read back for it, until it
    is deleted; storing or deleting it leaves every other flashcard's
    data, the list of flashcards and the sync queue as they were. *)
Theorem flashcard_data_round_trip (now : Z) (flashcardId : string)
    (data : OfflineFlashcard) (st : Store) :
  isAvailable st = true →
  (setFlashcardData now false flashcardId data st).1 = true
  ∧ getFlashcardData flashcardId (setFlashcardData now false flashcardId data st).2
    = Some data
  ∧ getFlashcardData flashcardId
      (deleteFlashcardData flashcardId
         (setFlashcardData now false flashcardId data st).2).2 = None
  ∧ (∀ st', st' = (setFlashcardData now false flashcardId data st).2
            ∨ st' = (deleteFlashcardData flashcardId st).2 →
       (∀ other, other ≠ flashcardId →
                 getFlashcardData other st' = getFlashcardData other st)
       ∧ getFlashcardsList st' = getFlashcardsList st
       ∧ getSyncQueue st' = getSyncQueue st).
Proof.
  intros Hav.
  unfold setFlashcardData, setItem, deleteFlashcardData. rewrite Hav. cbn [negb fst snd].
  split_and!.
  - done.
  - unfold getFlashcardData. cbn [isAvailable items negb fst snd]. by rewrite lookup_insert_eq.
  - unfold getFlashcardData. cbn [isAvailable items negb fst snd]. by rewrite lookup_delete_eq.
  - intros st' [-> | ->]; unfold getFlashcardData, getFlashcardsList, getSyncQueue;
      cbn [isAvailable items negb fst snd]; rewrite Hav; cbn [negb]; split_and!.
    + intros other Hne. rewrite lookup_insert_ne; [done|].
      intros H%dataKey_inj. by apply Hne.
    + rewrite lookup_insert_ne; [done|]. apply dataKey_not_list.
    + rewrite lookup_insert_ne; [done|]. apply dataKey_not_queue.
    + intros other Hne. rewrite lookup_delete_ne; [done|].
      intros H%dataKey_inj. by apply Hne.
    + rewrite lookup_delete_ne; [done|]. apply dataKey_not_list.
    + rewrite lookup_delete_ne; [done|]. apply dataKey_not_queue.
Qed.

Lemma flashcard_data_round_trip_witness :
  getFlashcardData "7" (setFlashcardData 1000 false "7" card7 emptyStore).2 = Some card7.
Proof.
  destruct (flashcard_data_round_trip 1000 "7" card7 emptyStore) as (_ & H & _).
  - reflexivity.
  - exact H.
Defined.

(** X25: Clearing the flashcard cache removes every flashcard's data and the
    list of flashcards, and leaves the sync queue alone. *)
Theorem clearFlashcardCache_spec (st : Store) :
  isAvailable st = true →
  (clearFlashcardCache st).1 = true
  ∧ (∀ flashcardId, getFlashcardData flashcardId (clearFlashcardCache st).2 = None)
  ∧ getFlashcardsList (clearFlashcardCache st).2 = None
  ∧ getSyncQueue (clearFlashcardCache st).2 = getSyncQueue st.
Proof.
  intros Hav. unfold clearFlashcardCache. rewrite Hav. cbn [negb fst snd].
  unfold getFlashcardData, getFlashcardsList, getSyncQueue.
  cbn [isAvailable items negb fst snd]. rewrite Hav. cbn [negb].
  split_and!.
  - done.
  - intros fid. rewrite lookup_delete_ne by (by intros H; apply (dataKey_not_list fid)).
    rewrite map_lookup_filter_None_2; [done|]. right. intros v _. cbn.
    by rewrite dataKey_isFlashcardDataKey.
  - by rewrite lookup_delete_eq.
  - rewrite lookup_delete_ne by done.
    destruct (items st !! getKey SYNC_QUEUE_KEY) as [v|] eqn:E.
    + erewrite map_lookup_filter_Some_2; [done|done|]. by vm_compute.
    + rewrite map_lookup_filter_None_2; [done|]. by left.
Qed.

Lemma clearFlashcardCache_spec_witness :
  getFlashcardData "7"
    (clearFlashcardCache (setFlashcardData 1000 false "7" card7 emptyStore).2).2 = None.
Proof.
  destruct (clearFlashcardCache_spec (setFlashcardData 1000 false "7" card7 emptyStore).2)
    as (_ & H & _).
  - reflexivity.
  - apply H.
Defined.

(** X26: An action queued for sync goes to the end of the queue, behind those
    queued before it, and the flashcards stay as they are; clearing the
    queue empties it.  When the write fails the queue is as before. *)
Theorem sync_queue_appends (now : Z) (action data : string) (st : Store) :
  isAvailable st = true →
  getSyncQueue (queueForSync now false action data st).2
  = getSyncQueue st
    ++ [{| q_id := now; q_action := action; q_data := data; q_timestamp := now |}]
  ∧ (∀ flashcardId,
       getFlashcardData flashcardId (queueForSync now false action data st).2
       = getFlashcardData flashcardId st)
  ∧ getFlashcardsList (queueForSync now false action data st).2 = getFlashcardsList st
  ∧ getSyncQueue (clearSyncQueue (queueForSync now false action data st).2).2 = []
  ∧ queueForSync now true action data st = (false, st).
Proof.
  intros Hav. unfold queueForSync, clearSyncQueue, setItem. rewrite Hav. cbn [negb fst snd].
  unfold getFlashcardData, getFlashcardsList.
  cbn [isAvailable items negb fst snd]. rewrite Hav. cbn [negb].
  split_and!.
  - unfold getSyncQueue at 1. cbn [isAvailable items negb fst snd]. by rewrite lookup_insert_eq.
  - intros fid. rewrite lookup_insert_ne; [done|].
    intros H. by apply (dataKey_not_queue fid).
  - by rewrite lookup_insert_ne.
  - unfold getSyncQueue at 1. cbn [isAvailable items negb fst snd]. by rewrite lookup_delete_eq.
  - done.
Qed.

Lemma sync_queue_appends_witness :
  getSyncQueue (queueForSync 1000 false "answer" "A" emptyStore).2
  = getSyncQueue emptyStore
    ++ [{| q_id := 1000; q_action := "answer"; q_data := "A"; q_timestamp := 1000 |}].
Proof.
  destruct (sync_queue_appends 1000 "answer" "A" emptyStore) as (H & _).
  - reflexivity.
  - exact H.
Defined.

(** X27: A flashcard fetched from the server is returned as fresh and cached;
    when a later fetch fails, the cached copy is returned, marked as
    offline and from the cache.  With nothing cached (also because the
    storage is not available, or was full when the copy was to be
    written) the failure is passed on. *)
Theorem fetch_falls_back_to_cache (now now' : Z) (throws throws' : bool)
    (flashcardId : string) (data : OfflineFlashcard) (st : Store) :
  (getFlashcardDataWithOfflineSupport now throws flashcardId (Some data) st).2
  = Some {| fetched_data := data; isOffline := false; fromCache := false |}
  ∧ (getFlashcardDataWithOfflineSupport now' throws' flashcardId None
       (getFlashcardDataWithOfflineSupport now throws flashcardId (Some data) st).1).2
    = (if isAvailable st && negb throws
       then Some {| fetched_data := data; isOffline := true; fromCache := true |}
       else (getFlashcardDataWithOfflineSupport now' throws' flashcardId None st).2)
  ∧ (getFlashcardDataWithOfflineSupport now' throws' flashcardId None st).1 = st
  ∧ ((getFlashcardDataWithOfflineSupport now' throws' flashcardId None st).2 = None
     ↔ getFlashcardData flashcardId st = None)
  ∧ (isAvailable st = false →
     (getFlashcardDataWithOfflineSupport now' throws' flashcardId None st).2 = None).
Proof.
  unfold getFlashcardDataWithOfflineSupport, setFlashcardData, setItem.
  split_and!.
  - done.
  - destruct (isAvailable st) eqn:Hav; cbn [negb andb snd fst]; [|done].
    destruct throws; cbn [negb snd fst]; [done|].
    unfold getFlashcardData. cbn [isAvailable items negb fst snd]. by rewrite lookup_insert_eq.
  - by destruct (getFlashcardData flashcardId st).
  - by destruct (getFlashcardData flashcardId st).
  - intros Hav. unfold getFlashcardData. by rewrite Hav.
Qed.

End OfflineStorageFacts.
